(** * OptiCoder: the summarisation pipeline of [app.py]

    A shallow embedding of the generate action of [app.py] (lines 60-221):
    the question list of the project context, input validation, the prompt,
    the completion call, the extraction of the [<Summary>] reply and the
    block list handed to the PDF renderer.

    Python [str] values are sequences of Unicode code points; they are
    modelled as lists of [N].  Library calls the script makes ([str.strip],
    [str.split], [str.join], [re.search], ElementTree) are modelled by the
    functions of the modules [Str], [Re] and [ET] below. *)

From Stdlib Require Import List NArith String Ascii Bool Arith Lia QArith.
Import ListNotations.

Local Open Scope N_scope.
Local Open Scope list_scope.

(** ** Python strings *)

Definition char := N.
Definition str := list char.

(** An ASCII literal of the script, as code points.  Characters outside
    ASCII are written by their code point where they occur. *)
Definition py (s : string) : str := map N_of_ascii (list_ascii_of_string s).

(** The double quote, U+0022. *)
Definition dq : str := [34].

Module Str.

Fixpoint eqb (a b : str) : bool :=
  match a, b with
  | [], [] => true
  | x :: a', y :: b' => N.eqb x y && eqb a' b'
  | _, _ => false
  end.

(** [s.startswith(p)], returning what follows the prefix. *)
Fixpoint strip_prefix (p s : str) : option str :=
  match p with
  | [] => Some s
  | x :: p' =>
      match s with
      | [] => None
      | y :: s' => if N.eqb x y then strip_prefix p' s' else None
      end
  end.

(** [str.isspace] on one code point: the characters CPython's
    [_PyUnicode_IsWhitespace] accepts. *)
Definition isspace (c : char) : bool :=
  ((9 <=? c) && (c <=? 13)) || ((28 <=? c) && (c <=? 32))
  || (c =? 133) || (c =? 160) || (c =? 5760)
  || ((8192 <=? c) && (c <=? 8202))
  || (c =? 8232) || (c =? 8233) || (c =? 8239) || (c =? 8287)
  || (c =? 12288).

Fixpoint lstrip (s : str) : str :=
  match s with
  | [] => []
  | c :: s' => if isspace c then lstrip s' else s
  end.

Definition rstrip (s : str) : str := rev (lstrip (rev s)).

(** [s.strip()] *)
Definition strip (s : str) : str := rstrip (lstrip s).

(** [s.split(sep)] for a separator of one character: the result always
    has at least one field. *)
Fixpoint split (sep : char) (s : str) : list str :=
  match s with
  | [] => [[]]
  | c :: s' =>
      if N.eqb c sep then [] :: split sep s'
      else match split sep s' with
           | [] => [[c]]
           | w :: ws => (c :: w) :: ws
           end
  end.

(** [sep.join(l)] *)
Fixpoint join (sep : str) (l : list str) : str :=
  match l with
  | [] => []
  | x :: rest =>
      match rest with
      | [] => x
      | _ :: _ => x ++ sep ++ join sep rest
      end
  end.

(** Truth value of a string: [bool(s)]. *)
Definition truthy (s : str) : bool :=
  match s with [] => false | _ :: _ => true end.

End Str.

(** The newline, U+000A. *)
Definition nl : char := 10.

(** ** Project context (lines 60-80) *)

Record ProjectContext := {
  project_no : str;
  client_name : str;
  industry : str;
  resp_type : str;
  objectives : str;
  questions : list str
}.

(** Line 73:
    [questions = [q.strip() for q in questions_raw.split("\n") if q.strip()]] *)
Definition parse_questions (questions_raw : str) : list str :=
  map Str.strip
      (filter (fun q => Str.truthy (Str.strip q)) (Str.split nl questions_raw)).

(** Lines 74-75: the [ctx] dictionary built from the form fields. *)
Definition build_ctx (project_no client_name industry resp_type objectives
                      questions_raw : str) : ProjectContext :=
  {| project_no := project_no; client_name := client_name;
     industry := industry; resp_type := resp_type; objectives := objectives;
     questions := parse_questions questions_raw |}.

(** ** [re.search(r"<Summary>[\s\S]*?</Summary>", response)] (line 142) *)

Module Re.

Definition open_tag : str := py "<Summary>".
Definition close_tag : str := py "</Summary>".

(** [[\s\S]*?p] tried at the head of [s]: the lazy star first tries to
    take no character, then one more at a time; [[\s\S]] accepts every
    character.  The result is the text matched, [p] included. *)
Fixpoint lazy_any_then (p s : str) : option str :=
  match Str.strip_prefix p s with
  | Some _ => Some p
  | None =>
      match s with
      | [] => None
      | c :: s' =>
          match lazy_any_then p s' with
          | Some m => Some (c :: m)
          | None => None
          end
      end
  end.

(** The pattern matched at the head of [s]. *)
Definition match_here (s : str) : option str :=
  match Str.strip_prefix open_tag s with
  | Some rest =>
      match lazy_any_then close_tag rest with
      | Some m => Some (open_tag ++ m)
      | None => None
      end
  | None => None
  end.

(** [re.search]: the start positions are tried from left to right and the
    first one where the pattern matches wins; the value is [m.group(0)],
    [None] when there is no match. *)
Fixpoint search (s : str) : option str :=
  match match_here s with
  | Some m => Some m
  | None =>
      match s with
      | [] => None
      | _ :: s' => search s'
      end
  end.

End Re.

(** ** [xml.etree.ElementTree] (lines 149, 156-159) *)

Module ET.

(** An [Element]: tag, attributes in document order, the text before the
    first child ([None] when there is none), the children and the text
    after the end tag. *)
#[warnings="-register-all"]
Inductive Element : Type :=
| mkElement (tag : str) (attrib : list (str * str)) (text : option str)
            (children : list Element) (tail : option str).

Definition tag (e : Element) : str :=
  match e with mkElement t _ _ _ _ => t end.
Definition attrib (e : Element) : list (str * str) :=
  match e with mkElement _ a _ _ _ => a end.
Definition text (e : Element) : option str :=
  match e with mkElement _ _ x _ _ => x end.
Definition children (e : Element) : list Element :=
  match e with mkElement _ _ _ c _ => c end.
Definition tail (e : Element) : option str :=
  match e with mkElement _ _ _ _ x => x end.

(** [e.find(t)] for a path that is one tag name: the first direct child
    with that tag, [None] when there is none. *)
Definition find (t : str) (e : Element) : option Element :=
  List.find (fun c => Str.eqb (tag c) t) (children e).

(** [e.findall(t)]: the direct children with that tag, in document order. *)
Definition findall (t : str) (e : Element) : list Element :=
  filter (fun c => Str.eqb (tag c) t) (children e).

(** [e.text or ""] *)
Definition text_or_empty (e : Element) : str :=
  match text e with
  | Some s => s
  | None => []
  end.

(** [e.findtext(t, default)]: the text of the first matching child, the
    empty string when that child has no text, [default] when no child
    matches. *)
Definition findtext (t : str) (default : str) (e : Element) : str :=
  match find t e with
  | Some c => text_or_empty c
  | None => default
  end.

(** [e.get(k)]: the attribute value, [None] when the attribute is absent. *)
Fixpoint lookup_attr (k : str) (a : list (str * str)) : option str :=
  match a with
  | [] => None
  | (k', v) :: a' => if Str.eqb k' k then Some v else lookup_attr k a'
  end.

Definition get (k : str) (e : Element) : option str :=
  lookup_attr k (attrib e).

(** *** [ET.fromstring]

    A model of the expat-backed, namespace-aware parser of
    [xml.etree.ElementTree] on the fragments line 142 hands it, which start
    with the root tag: elements, attributes, namespace declarations,
    character data, CDATA sections, comments, processing instructions, the
    five predefined entities and numeric character references.  A fragment
    cannot hold a prolog (XML declaration or document type) before its root,
    and one after the root tag is an error; the text of the error message is
    not modelled. *)

Inductive parsed := Parsed (root : Element) | ParseError.

(** [plain] marks character data written without references and outside
    CDATA sections. *)
Inductive token :=
| TStart (name : str) (attrs : list (str * str))
| TEmpty (name : str) (attrs : list (str * str))
| TEnd (name : str)
| TData (plain : bool) (data : str).

(** The characters XML 1.0 allows in a document. *)
Definition is_xml_char (c : char) : bool :=
  (c =? 9) || (c =? 10) || (c =? 13)
  || ((32 <=? c) && (c <=? 55295))
  || ((57344 <=? c) && (c <=? 65533))
  || ((65536 <=? c) && (c <=? 1114111)).

Definition is_xml_space (c : char) : bool :=
  (c =? 32) || (c =? 9) || (c =? 10) || (c =? 13).

Definition is_letter (c : char) : bool :=
  ((65 <=? c) && (c <=? 90)) || ((97 <=? c) && (c <=? 122)).

Definition is_digit (c : char) : bool := (48 <=? c) && (c <=? 57).

Definition in_ranges (c : char) (rs : list (N * N)) : bool :=
  existsb (fun r => (fst r <=? c) && (c <=? snd r)) rs.

(** The characters above ASCII that expat accepts as the first character
    of a name. *)
Definition name_start_ranges : list (N * N) :=
  [(192, 214); (216, 246); (248, 305); (308, 318); (321, 328); (330, 382);
   (384, 451); (461, 496); (500, 501); (506, 535); (592, 680); (699, 705);
   (902, 902); (904, 906); (908, 908); (910, 929); (931, 974); (976, 982);
   (986, 986); (988, 988); (990, 990); (992, 992); (994, 1011); (1025, 1036);
   (1038, 1103); (1105, 1116); (1118, 1153); (1168, 1220); (1223, 1224);
   (1227, 1228); (1232, 1259); (1262, 1269); (1272, 1273); (1329, 1366);
   (1369, 1369); (1377, 1414); (1488, 1514); (1520, 1522); (1569, 1594);
   (1601, 1610); (1649, 1719); (1722, 1726); (1728, 1742); (1744, 1747);
   (1749, 1749); (1765, 1766); (2309, 2361); (2365, 2365); (2392, 2401);
   (2437, 2444); (2447, 2448); (2451, 2472); (2474, 2480); (2482, 2482);
   (2486, 2489); (2524, 2525); (2527, 2529); (2544, 2545); (2565, 2570);
   (2575, 2576); (2579, 2600); (2602, 2608); (2610, 2611); (2613, 2614);
   (2616, 2617); (2649, 2652); (2654, 2654); (2674, 2676); (2693, 2699);
   (2701, 2701); (2703, 2705); (2707, 2728); (2730, 2736); (2738, 2739);
   (2741, 2745); (2749, 2749); (2784, 2784); (2821, 2828); (2831, 2832);
   (2835, 2856); (2858, 2864); (2866, 2867); (2870, 2873); (2877, 2877);
   (2908, 2909); (2911, 2913); (2949, 2954); (2958, 2960); (2962, 2965);
   (2969, 2970); (2972, 2972); (2974, 2975); (2979, 2980); (2984, 2986);
   (2990, 2997); (2999, 3001); (3077, 3084); (3086, 3088); (3090, 3112);
   (3114, 3123); (3125, 3129); (3168, 3169); (3205, 3212); (3214, 3216);
   (3218, 3240); (3242, 3251); (3253, 3257); (3294, 3294); (3296, 3297);
   (3333, 3340); (3342, 3344); (3346, 3368); (3370, 3385); (3424, 3425);
   (3585, 3630); (3632, 3632); (3634, 3635); (3648, 3653); (3713, 3714);
   (3716, 3716); (3719, 3720); (3722, 3722); (3725, 3725); (3732, 3735);
   (3737, 3743); (3745, 3747); (3749, 3749); (3751, 3751); (3754, 3755);
   (3757, 3758); (3760, 3760); (3762, 3763); (3773, 3773); (3776, 3780);
   (3904, 3911); (3913, 3945); (4256, 4293); (4304, 4342); (4352, 4352);
   (4354, 4355); (4357, 4359); (4361, 4361); (4363, 4364); (4366, 4370);
   (4412, 4412); (4414, 4414); (4416, 4416); (4428, 4428); (4430, 4430);
   (4432, 4432); (4436, 4437); (4441, 4441); (4447, 4449); (4451, 4451);
   (4453, 4453); (4455, 4455); (4457, 4457); (4461, 4462); (4466, 4467);
   (4469, 4469); (4510, 4510); (4520, 4520); (4523, 4523); (4526, 4527);
   (4535, 4536); (4538, 4538); (4540, 4546); (4587, 4587); (4592, 4592);
   (4601, 4601); (7680, 7835); (7840, 7929); (7936, 7957); (7960, 7965);
   (7968, 8005); (8008, 8013); (8016, 8023); (8025, 8025); (8027, 8027);
   (8029, 8029); (8031, 8061); (8064, 8116); (8118, 8124); (8126, 8126);
   (8130, 8132); (8134, 8140); (8144, 8147); (8150, 8155); (8160, 8172);
   (8178, 8180); (8182, 8188); (8486, 8486); (8490, 8491); (8494, 8494);
   (8576, 8578); (12295, 12295); (12321, 12329); (12353, 12436);
   (12449, 12538); (12549, 12588); (19968, 40869); (44032, 55203)].

(** The characters above ASCII that expat accepts inside a name only. *)
Definition name_extra_ranges : list (N * N) :=
  [(183, 183); (720, 721); (768, 837); (864, 865); (903, 903); (1155, 1158);
   (1425, 1441); (1443, 1465); (1467, 1469); (1471, 1471); (1473, 1474);
   (1476, 1476); (1600, 1600); (1611, 1618); (1632, 1641); (1648, 1648);
   (1750, 1764); (1767, 1768); (1770, 1773); (1776, 1785); (2305, 2307);
   (2364, 2364); (2366, 2381); (2385, 2388); (2402, 2403); (2406, 2415);
   (2433, 2435); (2492, 2492); (2494, 2500); (2503, 2504); (2507, 2509);
   (2519, 2519); (2530, 2531); (2534, 2543); (2562, 2562); (2620, 2620);
   (2622, 2626); (2631, 2632); (2635, 2637); (2662, 2673); (2689, 2691);
   (2748, 2748); (2750, 2757); (2759, 2761); (2763, 2765); (2790, 2799);
   (2817, 2819); (2876, 2876); (2878, 2883); (2887, 2888); (2891, 2893);
   (2902, 2903); (2918, 2927); (2946, 2947); (3006, 3010); (3014, 3016);
   (3018, 3021); (3031, 3031); (3047, 3055); (3073, 3075); (3134, 3140);
   (3142, 3144); (3146, 3149); (3157, 3158); (3174, 3183); (3202, 3203);
   (3262, 3268); (3270, 3272); (3274, 3277); (3285, 3286); (3302, 3311);
   (3330, 3331); (3390, 3395); (3398, 3400); (3402, 3405); (3415, 3415);
   (3430, 3439); (3633, 3633); (3636, 3642); (3654, 3662); (3664, 3673);
   (3761, 3761); (3764, 3769); (3771, 3772); (3782, 3782); (3784, 3789);
   (3792, 3801); (3864, 3865); (3872, 3881); (3893, 3893); (3895, 3895);
   (3897, 3897); (3902, 3903); (3953, 3972); (3974, 3979); (3984, 3989);
   (3991, 3991); (3993, 4013); (4017, 4023); (4025, 4025); (8400, 8412);
   (8417, 8417); (12293, 12293); (12330, 12335); (12337, 12341);
   (12441, 12442); (12445, 12446); (12540, 12542)].

(** The first character of a name; the colon is the namespace separator and
    is handled apart. *)
Definition is_name_start (c : char) : bool :=
  if c <? 128 then is_letter c || (c =? 95)
  else in_ranges c name_start_ranges.

Definition is_name_char (c : char) : bool :=
  is_name_start c
  || (if c <? 128 then is_digit c || (c =? 45) || (c =? 46)
      else in_ranges c name_extra_ranges).

(** The longest prefix whose characters satisfy [p], and the rest. *)
Fixpoint span (p : char -> bool) (s : str) : str * str :=
  match s with
  | [] => ([], [])
  | c :: s' =>
      if p c then let (a, r) := span p s' in (c :: a, r) else ([], s)
  end.

Definition skip_space (s : str) : str := snd (span is_xml_space s).

(** The text before the first occurrence of [stop], and what follows it. *)
Fixpoint take_until (stop s : str) : option (str * str) :=
  match Str.strip_prefix stop s with
  | Some rest => Some ([], rest)
  | None =>
      match s with
      | [] => None
      | c :: s' =>
          match take_until stop s' with
          | Some (a, r) => Some (c :: a, r)
          | None => None
          end
      end
  end.

(** Line ends are normalised before parsing: CR LF and a lone CR become LF. *)
Fixpoint normalize_eol (s : str) : str :=
  match s with
  | [] => []
  | c :: s' =>
      if c =? 13 then
        match s' with
        | 10 :: _ => normalize_eol s'
        | _ => 10 :: normalize_eol s'
        end
      else c :: normalize_eol s'
  end.

Definition digit_value (c : char) : option N :=
  if is_digit c then Some (c - 48)
  else if (97 <=? c) && (c <=? 102) then Some (c - 87)
  else if (65 <=? c) && (c <=? 70) then Some (c - 55)
  else None.

Fixpoint number (base : N) (acc : N) (s : str) : option N :=
  match s with
  | [] => Some acc
  | c :: s' =>
      match digit_value c with
      | Some d => if d <? base then number base (acc * base + d) s' else None
      | None => None
      end
  end.

(** A character reference must name a character XML allows. *)
Definition char_ref (n : option N) : option char :=
  match n with
  | Some c => if is_xml_char c then Some c else None
  | None => None
  end.

(** The character an entity or character reference stands for, given the
    text between [&] and [;]. *)
Definition entity (name : str) : option char :=
  if Str.eqb name (py "lt") then Some 60
  else if Str.eqb name (py "gt") then Some 62
  else if Str.eqb name (py "amp") then Some 38
  else if Str.eqb name (py "quot") then Some 34
  else if Str.eqb name (py "apos") then Some 39
  else match name with
       | 35 :: 120 :: ((_ :: _) as h) => char_ref (number 16 0 h)
       | 35 :: ((_ :: _) as d) =>
           match d with
           | 120 :: _ => None
           | _ => char_ref (number 10 0 d)
           end
       | _ => None
       end.

(** Character data or an attribute value with its references replaced;
    [None] for a bare [<], an unknown entity or an unterminated reference.
    [ent] holds the reference being read, reversed. *)
Fixpoint decode (ent : option str) (s : str) : option str :=
  match s with
  | [] => match ent with None => Some [] | Some _ => None end
  | c :: s' =>
      match ent with
      | None =>
          if c =? 38 then decode (Some []) s'
          else if c =? 60 then None
          else match decode None s' with
               | Some r => Some (c :: r)
               | None => None
               end
      | Some acc =>
          if c =? 59 then
            match entity (rev acc), decode None s' with
            | Some ch, Some r => Some (ch :: r)
            | _, _ => None
            end
          else decode (Some (c :: acc)) s'
      end
  end.

(** A name without a colon at the head of [s], and the rest. *)
Definition lex_ncname (s : str) : option (str * str) :=
  match span is_name_char s with
  | ((c :: _) as name, rest) => if is_name_start c then Some (name, rest) else None
  | ([], _) => None
  end.

(** A name, with at most one colon between two colon-free names. *)
Definition lex_qname (s : str) : option (str * str) :=
  match lex_ncname s with
  | Some (name, 58 :: rest) =>
      match lex_ncname rest with
      | Some (local, rest') => Some (name ++ 58 :: local, rest')
      | None => None
      end
  | other => other
  end.

(** The attributes of a start tag and whether it is an empty-element tag;
    [s] is what follows the tag name. *)
Fixpoint lex_attrs (fuel : nat) (s : str) (acc : list (str * str))
  : option (list (str * str) * bool * str) :=
  match fuel with
  | O => None
  | S fuel' =>
      let s1 := skip_space s in
      match s1 with
      | 62 :: rest => Some (rev acc, false, rest)
      | 47 :: 62 :: rest => Some (rev acc, true, rest)
      | _ =>
          match lex_qname s1 with
          | None => None
          | Some (name, s2) =>
              if Nat.eqb (List.length s1) (List.length s) then None
              else match lookup_attr name acc with
                   | Some _ => None
                   | None =>
                       match skip_space s2 with
                       | 61 :: s3 =>
                           match skip_space s3 with
                           | q :: s4 =>
                               if (q =? 34) || (q =? 39) then
                                 match take_until [q] s4 with
                                 | Some (raw, s5) =>
                                     match decode None
                                             (map (fun c => if is_xml_space c then 32 else c) raw) with
                                     | Some v => lex_attrs fuel' s5 ((name, v) :: acc)
                                     | None => None
                                     end
                                 | None => None
                                 end
                               else None
                           | [] => None
                           end
                       | _ => None
                       end
                   end
          end
      end
  end.

(** [xml] in any case is not the target of a processing instruction. *)
Definition is_xml_target (t : str) : bool :=
  match t with
  | [a; b; c] =>
      ((a =? 120) || (a =? 88)) && ((b =? 109) || (b =? 77))
      && ((c =? 108) || (c =? 76))
  | _ => false
  end.

(** What follows a processing instruction; [s] is what follows [<?]. *)
Definition lex_pi (s : str) : option str :=
  match lex_ncname s with
  | Some (target, r) =>
      if is_xml_target target then None
      else match r with
           | 63 :: 62 :: rest => Some rest
           | c :: r' =>
               if is_xml_space c then
                 match take_until (py "?>") r' with
                 | Some (_, rest) => Some rest
                 | None => None
                 end
               else None
           | [] => None
           end
  | None => None
  end.

Definition data_token (plain : bool) (d : str) : list token :=
  match d with [] => [] | _ :: _ => [TData plain d] end.

(** The tokens of a document: markup starts at a less-than sign, anything
    else is character data up to the next one. *)
Fixpoint lex (fuel : nat) (s : str) : option (list token) :=
  match fuel with
  | O => None
  | S fuel' =>
      match s with
      | [] => Some []
      | c :: s0 =>
          if negb (c =? 60) then
            let (d, rest) := span (fun c => negb (c =? 60)) s in
            match take_until (py "]]>") d with
            | Some _ => None
            | None =>
                match decode None d with
                | Some d' =>
                    option_map
                      (app (data_token (negb (existsb (N.eqb 38) d)) d'))
                      (lex fuel' rest)
                | None => None
                end
            end
          else
          match Str.strip_prefix (py "![CDATA[") s0 with
          | Some s1 =>
              match take_until (py "]]>") s1 with
              | Some (d, rest) =>
                  option_map (app (data_token false d)) (lex fuel' rest)
              | None => None
              end
          | None =>
          match Str.strip_prefix (py "!--") s0 with
          | Some s1 =>
              match take_until (py "--") s1 with
              | Some (_, 62 :: rest) => lex fuel' rest
              | _ => None
              end
          | None =>
          match s0 with
          | 63 :: s1 =>
              match lex_pi s1 with
              | Some rest => lex fuel' rest
              | None => None
              end
          | 47 :: s1 =>
              match lex_qname s1 with
              | Some (name, s2) =>
                  match skip_space s2 with
                  | 62 :: rest => option_map (cons (TEnd name)) (lex fuel' rest)
                  | _ => None
                  end
              | None => None
              end
          | _ =>
              match lex_qname s0 with
              | Some (name, s2) =>
                  match lex_attrs (S (List.length s2)) s2 [] with
                  | Some (attrs, true, rest) =>
                      option_map (cons (TEmpty name attrs)) (lex fuel' rest)
                  | Some (attrs, false, rest) =>
                      option_map (cons (TStart name attrs)) (lex fuel' rest)
                  | None => None
                  end
              | None => None
              end
          end end end
      end
  end.

(** *** Namespaces *)

Definition xml_uri : str := py "http://www.w3.org/XML/1998/namespace".
Definition xmlns_uri : str := py "http://www.w3.org/2000/xmlns/".

(** The namespace bindings in force, innermost first; the empty prefix is
    the default namespace. *)
Definition scope := list (str * str).

Definition initial_scope : scope := [(py "xml", xml_uri)].

(** The prefix and the local part of a name that has a colon. *)
Fixpoint split_colon (n : str) : option (str * str) :=
  match n with
  | [] => None
  | c :: n' =>
      if c =? 58 then Some ([], n')
      else match split_colon n' with
           | Some (p, l) => Some (c :: p, l)
           | None => None
           end
  end.

(** The prefix an attribute declares, when its name is [xmlns] or
    [xmlns:prefix]. *)
Definition declared_prefix (name : str) : option str :=
  if Str.eqb name (py "xmlns") then Some []
  else Str.strip_prefix (py "xmlns:") name.

(** The bindings expat accepts: [xmlns] is never declared, [xml] only as
    itself, no other prefix takes a reserved name or the empty name, and no
    name holds the closing brace ElementTree separates names with. *)
Definition valid_binding (p uri : str) : bool :=
  if Str.eqb p (py "xmlns") then false
  else if Str.eqb p (py "xml") then Str.eqb uri xml_uri
  else negb (Str.eqb uri xml_uri) && negb (Str.eqb uri xmlns_uri)
       && negb (existsb (N.eqb 125) uri)
       && (Str.truthy uri || negb (Str.truthy p)).

Fixpoint declare (attrs : list (str * str)) (sc : scope) : option scope :=
  match attrs with
  | [] => Some sc
  | (n, v) :: rest =>
      match declared_prefix n with
      | Some p => if valid_binding p v then declare rest ((p, v) :: sc) else None
      | None => declare rest sc
      end
  end.

(** [{uri}local] *)
Definition expand (uri local : str) : str := [123] ++ uri ++ [125] ++ local.

Definition resolve_tag (sc : scope) (n : str) : option str :=
  match split_colon n with
  | Some (p, l) =>
      match lookup_attr p sc with
      | Some uri => Some (expand uri l)
      | None => None
      end
  | None =>
      match lookup_attr [] sc with
      | Some ((_ :: _) as uri) => Some (expand uri n)
      | _ => Some n
      end
  end.

Definition resolve_attr (sc : scope) (n : str) : option str :=
  match split_colon n with
  | Some (p, l) =>
      match lookup_attr p sc with
      | Some uri => Some (expand uri l)
      | None => None
      end
  | None => Some n
  end.

(** The attributes of an element, declarations left out, under their
    expanded names; two attributes with one expanded name are an error. *)
Fixpoint resolve_attrs (sc : scope) (attrs acc : list (str * str))
  : option (list (str * str)) :=
  match attrs with
  | [] => Some (rev acc)
  | (n, v) :: rest =>
      match declared_prefix n with
      | Some _ => resolve_attrs sc rest acc
      | None =>
          match resolve_attr sc n with
          | Some n' =>
              match lookup_attr n' acc with
              | Some _ => None
              | None => resolve_attrs sc rest ((n', v) :: acc)
              end
          | None => None
          end
      end
  end.

(** An element being built: the name as written and as expanded, the
    attributes, the text seen before its first child, its finished
    children, last first, and the bindings in force inside it. *)
Record frame := {
  f_raw : str;
  f_tag : str;
  f_attrib : list (str * str);
  f_text : option str;
  f_kids : list Element;
  f_scope : scope
}.

Definition opt_app (o : option str) (d : str) : option str :=
  match o with
  | Some s => Some (s ++ d)
  | None => Some d
  end.

(** Character data goes to the text of the open element until it has a
    child, then to the tail of its last child. *)
Definition add_data (d : str) (f : frame) : frame :=
  match f_kids f with
  | [] => {| f_raw := f_raw f; f_tag := f_tag f; f_attrib := f_attrib f;
             f_text := opt_app (f_text f) d; f_kids := [];
             f_scope := f_scope f |}
  | mkElement t a x c tl :: ks =>
      {| f_raw := f_raw f; f_tag := f_tag f; f_attrib := f_attrib f;
         f_text := f_text f;
         f_kids := mkElement t a x c (opt_app tl d) :: ks;
         f_scope := f_scope f |}
  end.

Definition add_child (e : Element) (f : frame) : frame :=
  {| f_raw := f_raw f; f_tag := f_tag f; f_attrib := f_attrib f;
     f_text := f_text f; f_kids := e :: f_kids f; f_scope := f_scope f |}.

Definition close_frame (f : frame) : Element :=
  mkElement (f_tag f) (f_attrib f) (f_text f) (rev (f_kids f)) None.

(** A finished element joins its parent, or becomes the root. *)
Definition finish (e : Element) (stack : list frame)
  : list frame * option Element :=
  match stack with
  | [] => ([], Some e)
  | p :: st => (add_child e p :: st, None)
  end.

Definition current_scope (stack : list frame) : scope :=
  match stack with
  | [] => initial_scope
  | f :: _ => f_scope f
  end.

(** The frame a start tag opens inside [stack]. *)
Definition open_element (n : str) (attrs : list (str * str))
                        (stack : list frame) : option frame :=
  match declare attrs (current_scope stack) with
  | Some sc =>
      match resolve_tag sc n, resolve_attrs sc attrs [] with
      | Some t, Some a =>
          Some {| f_raw := n; f_tag := t; f_attrib := a; f_text := None;
                  f_kids := []; f_scope := sc |}
      | _, _ => None
      end
  | None => None
  end.

(** The tree of a token sequence; [stack] holds the open elements,
    innermost first, [root] the document element once it is closed. *)
Fixpoint build (toks : list token) (stack : list frame) (root : option Element)
  : parsed :=
  match toks with
  | [] =>
      match stack, root with
      | [], Some r => Parsed r
      | _, _ => ParseError
      end
  | t :: rest =>
      match root with
      | Some _ =>
          match t with
          | TData true d =>
              if forallb is_xml_space d then build rest stack root
              else ParseError
          | _ => ParseError
          end
      | None =>
          match t with
          | TStart n a =>
              match open_element n a stack with
              | Some f => build rest (f :: stack) None
              | None => ParseError
              end
          | TEmpty n a =>
              match open_element n a stack with
              | Some f =>
                  let (st, r) := finish (close_frame f) stack in
                  build rest st r
              | None => ParseError
              end
          | TEnd n =>
              match stack with
              | [] => ParseError
              | f :: st =>
                  if Str.eqb n (f_raw f) then
                    let (st', r) := finish (close_frame f) st in
                    build rest st' r
                  else ParseError
              end
          | TData plain d =>
              match stack with
              | [] =>
                  if plain && forallb is_xml_space d then build rest [] None
                  else ParseError
              | f :: st => build rest (add_data d f :: st) None
              end
          end
      end
  end.

(** [ET.fromstring(xml)] *)
Definition fromstring (xml : str) : parsed :=
  if forallb is_xml_char xml then
    let s := normalize_eol xml in
    match lex (S (List.length s)) s with
    | Some toks => build toks [] None
    | None => ParseError
    end
  else ParseError.

End ET.

(** ** Outcomes of the action *)

(** Exceptions the action lets escape. *)
Inductive exception :=
| NameError (name : string)
| AttributeError (msg : string)
| ProviderRaised (msg : str)
| UnicodeEncodeError
| DuplicateWidgetKey (key : str).

(** How a run ends before its last statement: [st.error(shown)] followed by
    [st.stop()]; the same with the message of a parse error, whose text is
    not modelled; or an exception no handler catches. *)
Inductive failure :=
| Halt (shown : str)
| HaltParseError
| Uncaught (e : exception).

Inductive result (A : Type) : Type :=
| Ok (a : A)
| Fail (f : failure).

Arguments Ok {A} a.
Arguments Fail {A} f.

(** The halts of the action, under the names of the error taxonomy.
    U+274C is the cross mark the messages start with. *)
Definition responses_missing : failure := Halt (py "Paste responses.").
Definition questions_missing : failure := Halt (py "Enter at least one question.").

Definition InputValidationError (f : failure) : Prop :=
  f = responses_missing \/ f = questions_missing.

Definition StructureNotFoundError : failure :=
  Halt ([10060] ++ py " Parsing error: <Summary> missing.").

(** Lines 150-153: [st.error] of the message of [ET.ParseError], the
    fragment shown, [st.stop()]. *)
Definition MalformedMarkupError : failure := HaltParseError.

(** What [root.find(...)] being [None] leads to at lines 156, 158 and 159. *)
Definition none_has_no_findall : failure :=
  Uncaught (AttributeError "'NoneType' object has no attribute 'findall'").

(** ** ResponseExtractor (lines 142-159) *)

Record SummaryDocument := {
  executive_items : list str;
  narrative : str;
  ideas : list str;
  quotes : list (option str * str)
}.

(** [[i.text or "" for i in root.find(section).findall(item)]] *)
Definition section_items (section item : str) (root : ET.Element)
  : result (list str) :=
  match ET.find section root with
  | Some e => Ok (map ET.text_or_empty (ET.findall item e))
  | None => Fail none_has_no_findall
  end.

(** [[(q.get('id'), q.text or "") for q in root.find('Quotes').findall('Quote')]] *)
Definition section_quotes (root : ET.Element) : result (list (option str * str)) :=
  match ET.find (py "Quotes") root with
  | Some e =>
      Ok (map (fun q => (ET.get (py "id") q, ET.text_or_empty q))
              (ET.findall (py "Quote") e))
  | None => Fail none_has_no_findall
  end.

(** Lines 156-159, in the order they run. *)
Definition extract_sections (root : ET.Element) : result SummaryDocument :=
  match section_items (py "Executive") (py "Item") root with
  | Fail f => Fail f
  | Ok execs =>
      let narrative := ET.findtext (py "Narrative") [] root in
      match section_items (py "Ideas") (py "Idea") root with
      | Fail f => Fail f
      | Ok ideas =>
          match section_quotes root with
          | Fail f => Fail f
          | Ok quotes =>
              Ok {| executive_items := execs; narrative := narrative;
                    ideas := ideas; quotes := quotes |}
          end
      end
  end.

(** A code point of the surrogate range: a Python string can hold it, its
    UTF-8 encoding does not exist. *)
Definition is_surrogate (c : char) : bool := (55296 <=? c) && (c <=? 57343).

(** Lines 147-159: the located fragment is parsed, then read.  The parser
    encodes the string first, which raises on a surrogate; that is not an
    [ET.ParseError] and line 150 does not catch it. *)
Definition extract_fragment (xml : str) : result SummaryDocument :=
  if existsb is_surrogate xml then Fail (Uncaught UnicodeEncodeError)
  else match ET.fromstring xml with
       | ET.ParseError => Fail MalformedMarkupError
       | ET.Parsed root => extract_sections root
       end.

(** Lines 142-159. *)
Definition extract (response : str) : result SummaryDocument :=
  match Re.search response with
  | None => Fail StructureNotFoundError
  | Some xml => extract_fragment xml
  end.

(** ** ContextBuilder and PromptComposer (lines 98-131) *)

(** [f"- {q}"] *)
Definition bullet (q : str) : str := py "- " ++ q.

(** Line 98 *)
Definition questions_list (ctx : ProjectContext) : str :=
  Str.join [nl] (map bullet (questions ctx)).

(** Lines 99-106 *)
Definition header (ctx : ProjectContext) : str :=
  [nl] ++ py "Project: " ++ project_no ctx ++ py " | Client: " ++ client_name ctx
       ++ py " | Industry: " ++ industry ctx ++ [nl]
  ++ py "Objectives: " ++ objectives ctx ++ [nl]
  ++ py "Respondent Type: " ++ resp_type ctx ++ [nl]
  ++ py "Questions:" ++ [nl]
  ++ questions_list ctx ++ [nl]
  ++ [nl].

(** Lines 107-120 *)
Definition xml_template : str :=
  [nl] ++ py "<Summary>" ++ [nl]
  ++ py "  <Executive>" ++ [nl]
  ++ py "    <Item><![CDATA[Bullet text]]></Item>" ++ [nl]
  ++ py "  </Executive>" ++ [nl]
  ++ py "  <Narrative><![CDATA[Narrative text]]></Narrative>" ++ [nl]
  ++ py "  <Ideas>" ++ [nl]
  ++ py "    <Idea><![CDATA[Idea text]]></Idea>" ++ [nl]
  ++ py "  </Ideas>" ++ [nl]
  ++ py "  <Quotes>" ++ [nl]
  ++ py "    <Quote id=" ++ dq ++ py "RESP_001" ++ dq
  ++ py "><![CDATA[Quote text]]></Quote>" ++ [nl]
  ++ py "  </Quotes>" ++ [nl]
  ++ py "</Summary>" ++ [nl].

(** The en dash, U+2013, of the ranges in the instructions. *)
Definition en_dash : str := [8211].

(** Lines 123-128 *)
Definition instructions : str :=
  py "You are a senior qualitative research analyst and business strategy consultant. Generate exactly:" ++ [nl]
  ++ py "- Executive Summary: 6" ++ en_dash ++ py "8 bullets, each 2" ++ en_dash
  ++ py "3 sentences" ++ [nl]
  ++ py "- Narrative Summary: at least 400 words" ++ [nl]
  ++ py "- Ideas Worth Exploring: 6" ++ en_dash ++ py "8 bullets, each 2" ++ en_dash
  ++ py "3 sentences" ++ [nl]
  ++ py "- Top 5 Quotes: verbatim with respondent IDs" ++ [nl]
  ++ py "Return only valid XML matching the template below." ++ [nl].

(** Lines 121-131 *)
Definition prompt (ctx : ProjectContext) (raw : str) : str :=
  header ctx ++ instructions ++ xml_template
  ++ ([nl] ++ py "Raw Responses:" ++ [nl] ++ raw ++ [nl]).

(** ** CompletionClient (lines 27-28, 132-139) *)

Record CompletionRequest := {
  model : str;
  max_tokens : N;
  content : str
}.

Definition CLAUDE_MODEL : str := py "claude-sonnet-4-5-20250929".
Definition MAX_CLAUDE_TOKENS : N := 1500.

(** The request of lines 133-137. *)
Definition test_request : CompletionRequest :=
  {| model := py "claude-3-5-sonnet-20241022"; max_tokens := 50;
     content := py "Say hello" |}.

(** The completion provider: the reply text, or the message of the error
    it raises. *)
Definition provider := CompletionRequest -> str + str.

(** ** DocumentAssembler (lines 161-216) *)

Inductive style := BodyText | Heading2.

(** Lengths are in points, as exact rationals where the script computes
    with floats. *)
Definition mm : Q := 360 # 127.

Inductive Flowable :=
| RLImage (path : str) (width height : Q)
| Paragraph (text : str) (s : style)
| Spacer (width height : Q)
| PageBreak.

(** [f"{rid}"] for a value that is a string or [None]. *)
Definition fmt (rid : option str) : str :=
  match rid with
  | Some s => s
  | None => py "None"
  end.

(** Lines 164 and 169 *)
Definition exec_text (doc : SummaryDocument) : str :=
  Str.join [nl] (executive_items doc).
Definition ideas_text (doc : SummaryDocument) : str :=
  Str.join [nl] (ideas doc).

(** Lines 172-173: label and content of the box of each quote. *)
Definition quote_boxes (doc : SummaryDocument) : list (str * str) :=
  map (fun '(rid, txt) => (py "Quote " ++ fmt rid, txt)) (quotes doc).

(** [elems.append(x)] *)
Definition append (elems : list Flowable) (x : Flowable) : list Flowable :=
  elems ++ [x].

(** [for x in xs: elems.append(f(x))] *)
Definition append_each {A : Type} (f : A -> Flowable) (xs : list A)
                       (elems : list Flowable) : list Flowable :=
  fold_left (fun acc x => append acc (f x)) xs elems.

(** Line 196; [stamp] is [datetime.now()] formatted as [%Y-%m-%d %H:%M]. *)
Definition meta (ctx : ProjectContext) (stamp : str) : str :=
  py "Project " ++ project_no ctx ++ py " | Client: " ++ client_name ctx
  ++ py " | Industry: " ++ industry ctx ++ py " | Generated: " ++ stamp.

(** Line 215 *)
Definition quote_paragraph (q : option str * str) : Flowable :=
  Paragraph (py "<b>" ++ fmt (fst q) ++ py "</b>: " ++ snd q) BodyText.

(** Line 47, without the directory of the script. *)
Definition logo_path : str := py "Opticom Logotype Blue_tagline_rgb.png".

(** Lines 189-215.  [logo] is the pixel width and height of the logo file
    when [os.path.exists(logo_path)], [None] otherwise. *)
Definition pdf_elems (logo : option (positive * positive)) (stamp : str)
                     (ctx : ProjectContext) (doc : SummaryDocument)
  : list Flowable :=
  let elems := [] in
  let elems :=
    match logo with
    | Some (w, h) =>
        let ratio := Z.pos h # w in
        append elems (RLImage logo_path (40 * mm) (40 * mm * ratio))
    | None => elems
    end in
  let elems := append elems (Paragraph (meta ctx stamp) BodyText) in
  let elems := append elems (Spacer 1 (5 * mm)) in
  let elems := append elems (Paragraph (py "Questions:") Heading2) in
  let elems := append_each (fun q => Paragraph (bullet q) BodyText) (questions ctx) elems in
  let elems := append elems PageBreak in
  let elems := append elems (Paragraph (py "Executive Summary") Heading2) in
  let elems := append_each (fun line => Paragraph (bullet line) BodyText)
                           (Str.split nl (exec_text doc)) elems in
  let elems := append elems PageBreak in
  let elems := append elems (Paragraph (py "Narrative Summary") Heading2) in
  let elems := append elems (Paragraph (narrative doc) BodyText) in
  let elems := append elems PageBreak in
  let elems := append elems (Paragraph (py "Ideas Worth Exploring") Heading2) in
  let elems := append_each (fun line => Paragraph (bullet line) BodyText)
                           (Str.split nl (ideas_text doc)) elems in
  let elems := append elems PageBreak in
  let elems := append elems (Paragraph (py "Top Quotes") Heading2) in
  let elems := append_each quote_paragraph (quotes doc) elems in
  elems.

(** What a run that reaches line 216 has produced. *)
Record Report := {
  document : SummaryDocument;
  executive_box : str;
  narrative_box : str;
  ideas_box : str;
  boxes : list (str * str);
  export : option (list Flowable)
}.

(** The first key of [keys] that occurs a second time. *)
Fixpoint first_repeat (keys seen : list str) : option str :=
  match keys with
  | [] => None
  | k :: rest =>
      if existsb (Str.eqb k) seen then Some k
      else first_repeat rest (k :: seen)
  end.

(** Line 173: [key=f"quote_{rid}"] *)
Definition quote_key (q : option str * str) : str := py "quote_" ++ fmt (fst q).

(** Lines 161-216.  The boxes of lines 172-173 carry the keys
    [quote_<rid>]; a key used a second time makes the widget call raise, and
    nothing after it runs. *)
Definition assemble (pdf_supported : bool) (logo : option (positive * positive))
                    (stamp : str) (ctx : ProjectContext) (doc : SummaryDocument)
  : result Report :=
  match first_repeat (map quote_key (quotes doc)) [] with
  | Some k => Fail (Uncaught (DuplicateWidgetKey k))
  | None =>
      Ok {| document := doc;
            executive_box := exec_text doc;
            narrative_box := narrative doc;
            ideas_box := ideas_text doc;
            boxes := quote_boxes doc;
            export := if pdf_supported then Some (pdf_elems logo stamp ctx doc)
                      else None |}
  end.

(** ** The generate action (lines 93-221)

    The state a run threads: the requests sent to the provider, oldest
    first, and the binding of the name [response].  Line 142 reads
    [response]; no statement of the file assigns it, so a run starts with
    the name unbound ([None]).

    The indentation of lines 132-139 does not match the block they stand in;
    the statements are taken in the order of the text, as the body of the
    action. *)

Record world := {
  calls : list CompletionRequest;
  response : option str
}.

Definition initial_world : world := {| calls := []; response := None |}.

Definition M (A : Type) : Type := world -> result A * world.

Definition ret {A : Type} (a : A) : M A := fun w => (Ok a, w).

Definition bind {A B : Type} (m : M A) (k : A -> M B) : M B :=
  fun w =>
    match m w with
    | (Ok a, w') => k a w'
    | (Fail f, w') => (Fail f, w')
    end.

Definition raise {A : Type} (f : failure) : M A := fun w => (Fail f, w).

Definition lift {A : Type} (r : result A) : M A := fun w => (r, w).

Notation "x <- m ;; k" := (bind m (fun x => k))
  (at level 61, m at next level, right associativity).
Notation "m ;;; k" := (bind m (fun _ => k))
  (at level 61, right associativity).

(** [client.messages.create(...)] and the [.content[0].text] of its value. *)
Definition messages_create (p : provider) (rq : CompletionRequest) : M str :=
  fun w =>
    let w' := {| calls := calls w ++ [rq]; response := response w |} in
    match p rq with
    | inl reply => (Ok reply, w')
    | inr msg => (Fail (Uncaught (ProviderRaised msg)), w')
    end.

(** Reading the name [response]. *)
Definition read_response : M str :=
  fun w =>
    match response w with
    | Some r => (Ok r, w)
    | None => (Fail (Uncaught (NameError "response")), w)
    end.

(** Lines 94-95 *)
Definition validate (raw : str) (ctx : ProjectContext) : M unit :=
  if negb (Str.truthy (Str.strip raw)) then raise responses_missing
  else match questions ctx with
       | [] => raise questions_missing
       | _ :: _ => ret tt
       end.

Definition generate (p : provider) (pdf_supported : bool)
                    (logo : option (positive * positive)) (stamp : str)
                    (raw : str) (ctx : ProjectContext) : M Report :=
  validate raw ctx ;;;
  let prompt := prompt ctx raw in
  test <- messages_create p test_request ;;
  r <- read_response ;;
  doc <- lift (extract r) ;;
  lift (assemble pdf_supported logo stamp ctx doc).

(** ** Cost estimate (line 88) *)

(** [max(1, len(raw or "")//4)]; [raw] is [None] when the text area has no
    value. *)
Definition estimate_tokens (raw : option str) : N :=
  N.max 1 (N.of_nat (List.length (match raw with Some s => s | None => [] end)) / 4).

(** ** The project store (lines 33-37 and 62-80) *)

(** An entry of [projects]: each key of a saved context may be missing in a
    file the script did not write; [None] is a missing key. *)
Record Saved := {
  sv_project_no : option str;
  sv_client_name : option str;
  sv_industry : option str;
  sv_resp_type : option str;
  sv_objectives : option str;
  sv_questions : option (list str)
}.

(** [{}] *)
Definition no_defaults : Saved :=
  {| sv_project_no := None; sv_client_name := None; sv_industry := None;
     sv_resp_type := None; sv_objectives := None; sv_questions := None |}.

(** The dictionary [ctx] as an entry: every key is present. *)
Definition saved_of (ctx : ProjectContext) : Saved :=
  {| sv_project_no := Some (project_no ctx);
     sv_client_name := Some (client_name ctx);
     sv_industry := Some (industry ctx);
     sv_resp_type := Some (resp_type ctx);
     sv_objectives := Some (objectives ctx);
     sv_questions := Some (questions ctx) |}.

(** [projects]: a dictionary in insertion order. *)
Definition Projects := list (str * Saved).

(** [projects.get(k)] *)
Fixpoint dict_get (k : str) (d : Projects) : option Saved :=
  match d with
  | [] => None
  | (k', v) :: d' => if Str.eqb k' k then Some v else dict_get k d'
  end.

(** [projects[k] = v]: an existing key keeps its place, a new one goes last. *)
Fixpoint dict_set (k : str) (v : Saved) (d : Projects) : Projects :=
  match d with
  | [] => [(k, v)]
  | (k', v') :: d' =>
      if Str.eqb k' k then (k', v) :: d' else (k', v') :: dict_set k v d'
  end.

(** [list(projects.keys())] *)
Definition dict_keys (d : Projects) : list str := map fst d.

Definition NEW : str := py "-- New --".

(** Line 62: the options of the selector. *)
Definition load_options (projects : Projects) : list str :=
  NEW :: dict_keys projects.

(** Line 63: [sel if sel != "-- New --" else st.text_input("Project Number")];
    [typed] is the content of the text input. *)
Definition choose_project_no (sel typed : str) : str :=
  if negb (Str.eqb sel NEW) then sel else typed.

(** Line 64: [projects.get(project_no, {}) if project_no else {}] *)
Definition load_defaults (projects : Projects) (project_no : str) : Saved :=
  if Str.truthy project_no then
    match dict_get project_no projects with
    | Some d => d
    | None => no_defaults
    end
  else no_defaults.

(** [defaults.get(key, "")] *)
Definition get_or_empty (o : option str) : str :=
  match o with Some s => s | None => [] end.

(** The value of the questions text area, line 72:
    ["\n".join(defaults.get("questions", []))] *)
Definition questions_value (d : Saved) : str :=
  Str.join [nl] (match sv_questions d with Some l => l | None => [] end).

(** What the user did to the fields of the form: [None] for a field left as
    it was prefilled, which then returns its [value]. *)
Record FormEdits := {
  e_client_name : option str;
  e_industry : option str;
  e_resp_type : option str;
  e_objectives : option str;
  e_questions_raw : option str
}.

Definition untouched : FormEdits :=
  {| e_client_name := None; e_industry := None; e_resp_type := None;
     e_objectives := None; e_questions_raw := None |}.

Definition field (edit : option str) (value : str) : str :=
  match edit with Some s => s | None => value end.

(** Lines 62-80: the context of this run and the store after it. *)
Definition context_step (projects : Projects) (sel typed : str) (edits : FormEdits)
  : ProjectContext * Projects :=
  let project_no := choose_project_no sel typed in
  let defaults := load_defaults projects project_no in
  let ctx :=
    build_ctx project_no
      (field (e_client_name edits) (get_or_empty (sv_client_name defaults)))
      (field (e_industry edits) (get_or_empty (sv_industry defaults)))
      (field (e_resp_type edits) (get_or_empty (sv_resp_type defaults)))
      (field (e_objectives edits) (get_or_empty (sv_objectives defaults)))
      (field (e_questions_raw edits) (questions_value defaults)) in
  (ctx,
   if Str.truthy project_no then dict_set project_no (saved_of ctx) projects
   else projects).

(** ** Vocabulary of the statements *)

(** The reply of Scenario A. *)
Definition scenario_A : str :=
  py "<Summary><Executive><Item>A</Item><Item>B</Item></Executive>"
  ++ py "<Narrative>N</Narrative><Ideas><Idea>I</Idea></Ideas>"
  ++ py "<Quotes><Quote id=" ++ dq ++ py "R1" ++ dq ++ py ">Q1</Quote></Quotes>"
  ++ py "</Summary>".

(** The reply of Scenario E: a narrative element without content. *)
Definition scenario_E : str :=
  py "<Summary><Executive><Item>A</Item></Executive><Narrative></Narrative>"
  ++ py "<Ideas><Idea>I</Idea></Ideas><Quotes></Quotes></Summary>".

(** A reply with no narrative element at all. *)
Definition reply_without_narrative : str :=
  py "<Summary><Executive><Item>A</Item></Executive>"
  ++ py "<Ideas><Idea>I</Idea></Ideas><Quotes></Quotes></Summary>".

(** A reply with no ideas element. *)
Definition reply_without_ideas : str :=
  py "<Summary><Executive><Item>A</Item></Executive><Narrative>N</Narrative>"
  ++ py "<Quotes></Quotes></Summary>".

(** A reply whose second quote has no [id] attribute, inside the prose a
    model may put around the block. *)
Definition reply_quote_without_id : str :=
  py "Here you go: <Summary><Executive></Executive><Narrative>N</Narrative>"
  ++ py "<Ideas></Ideas><Quotes><Quote id='R2'>Q2</Quote><Quote>Q1</Quote></Quotes>"
  ++ py "</Summary> Anything else?".

(** A reply without the root tag. *)
Definition reply_without_root : str :=
  py "I could not summarise these responses. </Summary>".

(** A reply with prose around the block and a second closing tag after it. *)
Definition reply_two_closings : str :=
  py "Sure: <Summary><Executive/><Ideas/><Quotes/></Summary> and </Summary>".

(** A raw reply in which [raw = pre ++ <Summary> ++ mid ++ </Summary> ++ post]. *)
Definition bounded (raw pre mid post : str) : Prop :=
  raw = pre ++ Re.open_tag ++ mid ++ Re.close_tag ++ post.

(** Whether [p] occurs in [s]. *)
Fixpoint occurs (p s : str) : bool :=
  match Str.strip_prefix p s with
  | Some _ => true
  | None => match s with [] => false | _ :: s' => occurs p s' end
  end.

Definition sample_ctx : ProjectContext :=
  build_ctx (py "P-17") (py "Acme") (py "Retail") (py "Store managers")
            (py "Understand churn")
            (py "  Why did you leave?  " ++ [nl] ++ py "   " ++ [nl]
             ++ py "What would bring you back?").

Definition sample_raw : str := py "RESP_001 - too expensive".

Definition sample_doc : SummaryDocument :=
  {| executive_items := [py "A"; py "B"]; narrative := py "N";
     ideas := [py "I"]; quotes := [(Some (py "R1"), py "Q1")] |}.

Definition empty_doc : SummaryDocument :=
  {| executive_items := []; narrative := []; ideas := []; quotes := [] |}.

Definition bullet_paragraph (line : str) : Flowable :=
  Paragraph (bullet line) BodyText.

(** The optional image block of line 194. *)
Definition logo_block (logo : option (positive * positive)) : list Flowable :=
  match logo with
  | Some (w, h) => [RLImage logo_path (40 * mm) (40 * mm * (Z.pos h # w))]
  | None => []
  end.

(** The export sequence as the specification words it: no spacer, one
    bullet per item, quote paragraphs reading [respondent_id: quote_text]. *)
Definition spec_export (logo : option (positive * positive)) (stamp : str)
                       (ctx : ProjectContext) (doc : SummaryDocument)
  : list Flowable :=
  logo_block logo
  ++ [Paragraph (meta ctx stamp) BodyText; Paragraph (py "Questions:") Heading2]
  ++ map bullet_paragraph (questions ctx)
  ++ [PageBreak; Paragraph (py "Executive Summary") Heading2]
  ++ map bullet_paragraph (executive_items doc)
  ++ [PageBreak; Paragraph (py "Narrative Summary") Heading2;
      Paragraph (narrative doc) BodyText;
      PageBreak; Paragraph (py "Ideas Worth Exploring") Heading2]
  ++ map bullet_paragraph (ideas doc)
  ++ [PageBreak; Paragraph (py "Top Quotes") Heading2]
  ++ map (fun q => Paragraph (fmt (fst q) ++ py ": " ++ snd q) BodyText)
         (quotes doc).

(** *** Replies in the shape of the template

    The text of a reply that follows lines 107-120: the root, the four
    sections in the order of the template, any number of items, ideas and
    quotes, each text written as escaped character data or as a CDATA
    section, an optional [id] on every leaf, and white space between the
    elements. *)

(** The text of a leaf element as the reply writes it. *)
Inductive written :=
| Escaped (t : str)
| CData (t : str).

Definition written_text (c : written) : str :=
  match c with
  | Escaped t => t
  | CData t => t
  end.

(** Character data: the three markup characters and the carriage return
    are written as references. *)
Definition escape_char (c : char) : str :=
  if c =? 38 then py "&amp;"
  else if c =? 60 then py "&lt;"
  else if c =? 62 then py "&gt;"
  else if c =? 13 then py "&#13;"
  else [c].

Definition escape (t : str) : str := flat_map escape_char t.

(** An attribute value between double quotes: the quote and the white
    space a parser would turn into a space are written as references too. *)
Definition escape_attr_char (c : char) : str :=
  if c =? 38 then py "&amp;"
  else if c =? 60 then py "&lt;"
  else if c =? 34 then py "&quot;"
  else if c =? 9 then py "&#9;"
  else if c =? 10 then py "&#10;"
  else if c =? 13 then py "&#13;"
  else [c].

Definition escape_attr (t : str) : str := flat_map escape_attr_char t.

Definition written_src (c : written) : str :=
  match c with
  | Escaped t => escape t
  | CData t => py "<![CDATA[" ++ t ++ py "]]>"
  end.

(** A leaf element: its [id] attribute if it has one, its text, and the
    white space after its end tag. *)
Record leaf := {
  l_id : option str;
  l_text : written;
  l_after : str
}.

Definition leaf_text (l : leaf) : str := written_text (l_text l).

Inductive tagname :=
| Summary | Executive | Item | Narrative | Ideas | Idea | Quotes | Quote.

Definition tag_str (n : tagname) : str :=
  match n with
  | Summary => py "Summary"
  | Executive => py "Executive"
  | Item => py "Item"
  | Narrative => py "Narrative"
  | Ideas => py "Ideas"
  | Idea => py "Idea"
  | Quotes => py "Quotes"
  | Quote => py "Quote"
  end.

Definition open_src (n : tagname) : str := py "<" ++ tag_str n ++ py ">".
Definition close_src (n : tagname) : str := py "</" ++ tag_str n ++ py ">".

Definition start_src (n : tagname) (rid : option str) : str :=
  match rid with
  | Some r => py "<" ++ tag_str n ++ py " id=" ++ dq ++ escape_attr r ++ dq ++ py ">"
  | None => open_src n
  end.

Definition leaf_src (n : tagname) (l : leaf) : str :=
  start_src n (l_id l) ++ written_src (l_text l) ++ close_src n ++ l_after l.

(** The white space after the root tag and after the start and end tags
    of the three list sections. *)
Record layout := {
  after_root : str;
  after_executive : str;
  after_executive_end : str;
  after_ideas : str;
  after_ideas_end : str;
  after_quotes : str;
  after_quotes_end : str
}.

Record reply := {
  r_layout : layout;
  r_items : list leaf;
  r_narrative : leaf;
  r_ideas : list leaf;
  r_quotes : list leaf
}.

(** The text of the reply. *)
Definition reply_src (r : reply) : str :=
  open_src Summary ++ after_root (r_layout r)
  ++ open_src Executive ++ after_executive (r_layout r)
  ++ flat_map (leaf_src Item) (r_items r)
  ++ close_src Executive ++ after_executive_end (r_layout r)
  ++ leaf_src Narrative (r_narrative r)
  ++ open_src Ideas ++ after_ideas (r_layout r)
  ++ flat_map (leaf_src Idea) (r_ideas r)
  ++ close_src Ideas ++ after_ideas_end (r_layout r)
  ++ open_src Quotes ++ after_quotes (r_layout r)
  ++ flat_map (leaf_src Quote) (r_quotes r)
  ++ close_src Quotes ++ after_quotes_end (r_layout r)
  ++ close_src Summary.

(** The document the reply stands for: the texts in the order written. *)
Definition reply_doc (r : reply) : SummaryDocument :=
  {| executive_items := map leaf_text (r_items r);
     narrative := leaf_text (r_narrative r);
     ideas := map leaf_text (r_ideas r);
     quotes := map (fun l => (l_id l, leaf_text l)) (r_quotes r) |}.

(** White space between elements: spaces, tabs and newlines. *)
Definition is_layout (w : str) : bool :=
  forallb (fun c => (c =? 32) || (c =? 9) || (c =? 10)) w.

(** [stop] occurs in [t ++ stop] at its end only. *)
Definition closes_at_end (stop t : str) : bool :=
  match ET.take_until stop (t ++ stop) with
  | Some (a, []) => Str.eqb a t
  | _ => false
  end.

(** Escaped text may hold any character XML allows.  The text of a CDATA
    section is taken as it stands: no carriage return, which a parser
    rewrites, no end of the section, no closing root tag. *)
Definition written_ok (c : written) : bool :=
  match c with
  | Escaped t => forallb ET.is_xml_char t
  | CData t =>
      forallb ET.is_xml_char t && negb (existsb (N.eqb 13) t)
      && closes_at_end (py "]]>") t && negb (occurs Re.close_tag t)
  end.

Definition leaf_ok (l : leaf) : bool :=
  match l_id l with
  | Some r => forallb ET.is_xml_char r
  | None => true
  end
  && written_ok (l_text l) && is_layout (l_after l).

Definition layout_ok (y : layout) : bool :=
  is_layout (after_root y) && is_layout (after_executive y)
  && is_layout (after_executive_end y) && is_layout (after_ideas y)
  && is_layout (after_ideas_end y) && is_layout (after_quotes y)
  && is_layout (after_quotes_end y).

Definition reply_ok (r : reply) : bool :=
  layout_ok (r_layout r) && forallb leaf_ok (r_items r)
  && leaf_ok (r_narrative r) && forallb leaf_ok (r_ideas r)
  && forallb leaf_ok (r_quotes r).

(** [None] for the empty string. *)
Definition opt (s : str) : option str :=
  match s with
  | [] => None
  | _ :: _ => Some s
  end.

Definition id_attrs (rid : option str) : list (str * str) :=
  match rid with
  | Some r => [(py "id", r)]
  | None => []
  end.

(** The tokens and the element of a leaf. *)
Definition written_tokens (c : written) : list ET.token :=
  match c with
  | Escaped t => ET.data_token (negb (existsb (N.eqb 38) (escape t))) t
  | CData t => ET.data_token false t
  end.

Definition leaf_tokens (n : tagname) (l : leaf) : list ET.token :=
  ET.TStart (tag_str n) (id_attrs (l_id l))
  :: written_tokens (l_text l)
  ++ ET.TEnd (tag_str n) :: ET.data_token true (l_after l).

Definition leaf_elem (n : tagname) (l : leaf) : ET.Element :=
  ET.mkElement (tag_str n) (id_attrs (l_id l)) (opt (leaf_text l)) []
               (opt (l_after l)).

Definition open_tokens (n : tagname) (w : str) : list ET.token :=
  ET.TStart (tag_str n) [] :: ET.data_token true w.

Definition close_tokens (n : tagname) (w : str) : list ET.token :=
  ET.TEnd (tag_str n) :: ET.data_token true w.

Definition reply_tokens (r : reply) : list ET.token :=
  open_tokens Summary (after_root (r_layout r))
  ++ open_tokens Executive (after_executive (r_layout r))
  ++ flat_map (leaf_tokens Item) (r_items r)
  ++ close_tokens Executive (after_executive_end (r_layout r))
  ++ leaf_tokens Narrative (r_narrative r)
  ++ open_tokens Ideas (after_ideas (r_layout r))
  ++ flat_map (leaf_tokens Idea) (r_ideas r)
  ++ close_tokens Ideas (after_ideas_end (r_layout r))
  ++ open_tokens Quotes (after_quotes (r_layout r))
  ++ flat_map (leaf_tokens Quote) (r_quotes r)
  ++ close_tokens Quotes (after_quotes_end (r_layout r))
  ++ close_tokens Summary [].

(** The tree of the reply. *)
Definition section_elem (n : tagname) (w : str) (kids : list ET.Element)
                        (w' : str) : ET.Element :=
  ET.mkElement (tag_str n) [] (opt w) kids (opt w').

Definition reply_tree (r : reply) : ET.Element :=
  ET.mkElement (tag_str Summary) [] (opt (after_root (r_layout r)))
    [section_elem Executive (after_executive (r_layout r))
       (map (leaf_elem Item) (r_items r)) (after_executive_end (r_layout r));
     leaf_elem Narrative (r_narrative r);
     section_elem Ideas (after_ideas (r_layout r))
       (map (leaf_elem Idea) (r_ideas r)) (after_ideas_end (r_layout r));
     section_elem Quotes (after_quotes (r_layout r))
       (map (leaf_elem Quote) (r_quotes r)) (after_quotes_end (r_layout r))]
    None.

(** Scenario A and the template of the prompt as replies. *)
Definition plain_leaf (rid : option str) (t : str) : leaf :=
  {| l_id := rid; l_text := Escaped t; l_after := [] |}.

Definition no_layout : layout :=
  {| after_root := []; after_executive := []; after_executive_end := [];
     after_ideas := []; after_ideas_end := []; after_quotes := [];
     after_quotes_end := [] |}.

Definition scenario_A_reply : reply :=
  {| r_layout := no_layout;
     r_items := [plain_leaf None (py "A"); plain_leaf None (py "B")];
     r_narrative := plain_leaf None (py "N");
     r_ideas := [plain_leaf None (py "I")];
     r_quotes := [plain_leaf (Some (py "R1")) (py "Q1")] |}.

Definition template_reply : reply :=
  {| r_layout :=
       {| after_root := [nl; 32; 32]; after_executive := [nl; 32; 32; 32; 32];
          after_executive_end := [nl; 32; 32];
          after_ideas := [nl; 32; 32; 32; 32]; after_ideas_end := [nl; 32; 32];
          after_quotes := [nl; 32; 32; 32; 32]; after_quotes_end := [nl] |};
     r_items := [{| l_id := None; l_text := CData (py "Bullet text");
                    l_after := [nl; 32; 32] |}];
     r_narrative := {| l_id := None; l_text := CData (py "Narrative text");
                       l_after := [nl; 32; 32] |};
     r_ideas := [{| l_id := None; l_text := CData (py "Idea text");
                    l_after := [nl; 32; 32] |}];
     r_quotes := [{| l_id := Some (py "RESP_001");
                     l_text := CData (py "Quote text");
                     l_after := [nl; 32; 32] |}] |}.

(** Characters as the parts of a reply hold them. *)
Definition text_charb (c : char) : bool :=
  negb (c =? 60) && negb (c =? 62) && negb (c =? 13) && ET.is_xml_char c.

Definition attr_charb (c : char) : bool :=
  negb (c =? 60) && negb (c =? 34) && negb (c =? 9) && negb (c =? 10)
  && negb (c =? 13) && ET.is_xml_char c.

Definition layoutb (c : char) : bool := (c =? 32) || (c =? 9) || (c =? 10).

(** A character XML allows that is not the carriage return. *)
Definition plainb (c : char) : bool := ET.is_xml_char c && negb (c =? 13).

(** The frame of a section being built, and the same frame with more
    finished children. *)
Definition section_frame (n : tagname) (w : str) (kids : list ET.Element)
  : ET.frame :=
  {| ET.f_raw := tag_str n; ET.f_tag := tag_str n; ET.f_attrib := [];
     ET.f_text := opt w; ET.f_kids := kids; ET.f_scope := ET.initial_scope |}.

(** A character other than the less-than sign. *)
Definition no_ltb (c : char) : bool := negb (c =? 60).

(** A block list without its spacers. *)
Definition without_spacers (l : list Flowable) : list Flowable :=
  filter (fun f => match f with Spacer _ _ => false | _ => true end) l.

(** The page breaks of a block list. *)
Definition page_breaks (l : list Flowable) : list Flowable :=
  filter (fun f => match f with PageBreak => true | _ => false end) l.

(** The texts of the headings of a block list, in order. *)
Definition headings (l : list Flowable) : list str :=
  flat_map (fun f => match f with Paragraph t Heading2 => [t] | _ => [] end) l.

(** The less-than sign, U+003C. *)
Definition lt_sign : char := 60.

(** The template of lines 107-120 without its first and last newline. *)
Definition template_block : str :=
  py "<Summary>" ++ [nl]
  ++ py "  <Executive>" ++ [nl]
  ++ py "    <Item><![CDATA[Bullet text]]></Item>" ++ [nl]
  ++ py "  </Executive>" ++ [nl]
  ++ py "  <Narrative><![CDATA[Narrative text]]></Narrative>" ++ [nl]
  ++ py "  <Ideas>" ++ [nl]
  ++ py "    <Idea><![CDATA[Idea text]]></Idea>" ++ [nl]
  ++ py "  </Ideas>" ++ [nl]
  ++ py "  <Quotes>" ++ [nl]
  ++ py "    <Quote id=" ++ dq ++ py "RESP_001" ++ dq
  ++ py "><![CDATA[Quote text]]></Quote>" ++ [nl]
  ++ py "  </Quotes>" ++ [nl]
  ++ py "</Summary>".

(** The document the template stands for. *)
Definition placeholder_doc : SummaryDocument :=
  {| executive_items := [py "Bullet text"]; narrative := py "Narrative text";
     ideas := [py "Idea text"];
     quotes := [(Some (py "RESP_001"), py "Quote text")] |}.

(** A context none of whose texts holds a less-than sign. *)
Definition plain_ctx (ctx : ProjectContext) : Prop :=
  ~ In lt_sign (project_no ctx) /\ ~ In lt_sign (client_name ctx)
  /\ ~ In lt_sign (industry ctx) /\ ~ In lt_sign (objectives ctx)
  /\ ~ In lt_sign (resp_type ctx)
  /\ Forall (fun q => ~ In lt_sign q) (questions ctx).

(** How a run from an unbound [response] can end: stopped by validation with
    nothing sent, or after the test request, on the error of the provider or
    on the unbound name. *)
Inductive run_end (p : provider) (w : world) : result Report * world -> Prop :=
| end_invalid f :
    InputValidationError f -> run_end p w (Fail f, w)
| end_provider msg :
    p test_request = inr msg ->
    run_end p w (Fail (Uncaught (ProviderRaised msg)),
                 {| calls := calls w ++ [test_request]; response := response w |})
| end_unbound reply :
    p test_request = inl reply ->
    run_end p w (Fail (Uncaught (NameError "response")),
                 {| calls := calls w ++ [test_request]; response := response w |}).

(** A string that is empty or starts with a character that is not a space. *)
Definition clean (s : str) : Prop :=
  match s with
  | [] => True
  | c :: _ => Str.isspace c = false
  end.

(** * Properties *)

(** ** Strings *)

Lemma eqb_eq (a b : str) : Str.eqb a b = true <-> a = b.
Proof.
  revert b. induction a as [|x a IH]; intros [|y b]; simpl; split;
    try congruence; try discriminate.
  - intros H. apply andb_prop in H as [Hx Ha].
    apply N.eqb_eq in Hx. apply IH in Ha. congruence.
  - intros H. injection H as -> ->. rewrite N.eqb_refl. simpl. now apply IH.
Qed.

Lemma strip_prefix_Some (p s r : str) :
  Str.strip_prefix p s = Some r <-> s = p ++ r.
Proof.
  revert s. induction p as [|x p IH]; intros s; simpl.
  - split; congruence.
  - destruct s as [|y s]; [split; discriminate|].
    destruct (N.eqb_spec x y) as [->|Hxy].
    + rewrite IH. split; congruence.
    + split; [discriminate|]. intros H. injection H as H _. congruence.
Qed.

Lemma strip_prefix_None (p s : str) :
  Str.strip_prefix p s = None <-> forall r, s <> p ++ r.
Proof.
  split.
  - intros H r Hr. apply strip_prefix_Some in Hr. congruence.
  - intros H. destruct (Str.strip_prefix p s) as [r|] eqn:E; [|reflexivity].
    apply strip_prefix_Some in E. now apply H in E.
Qed.

Lemma lstrip_clean (s : str) : clean (Str.lstrip s).
Proof.
  induction s as [|c s IH]; simpl; [exact I|].
  destruct (Str.isspace c) eqn:E; [exact IH|exact E].
Qed.

Lemma lstrip_id (s : str) : clean s -> Str.lstrip s = s.
Proof.
  destruct s as [|c s]; simpl; [reflexivity|]. now intros ->.
Qed.

Lemma lstrip_suffix (s : str) : exists p, s = p ++ Str.lstrip s.
Proof.
  induction s as [|c s [p IH]]; simpl.
  - now exists [].
  - destruct (Str.isspace c).
    + exists (c :: p). simpl. now f_equal.
    + now exists [].
Qed.

Lemma clean_prefix (a b : str) : clean (a ++ b) -> a <> [] -> clean a.
Proof. destruct a; simpl; [congruence|auto]. Qed.

Lemma strip_clean (s : str) : clean (Str.strip s).
Proof.
  unfold Str.strip, Str.rstrip.
  destruct (lstrip_suffix (rev (Str.lstrip s))) as [p Hp].
  apply (f_equal (@rev char)) in Hp.
  rewrite rev_involutive, rev_app_distr in Hp.
  destruct (rev (Str.lstrip (rev (Str.lstrip s)))) as [|c t] eqn:E; [exact I|].
  apply (clean_prefix _ (rev p)); [|discriminate].
  rewrite <- Hp. apply lstrip_clean.
Qed.

Lemma strip_idempotent (s : str) : Str.strip (Str.strip s) = Str.strip s.
Proof.
  unfold Str.strip at 1. rewrite (lstrip_id _ (strip_clean s)).
  unfold Str.strip, Str.rstrip. rewrite rev_involutive.
  now rewrite (lstrip_id _ (lstrip_clean _)).
Qed.

Lemma truthy_true (s : str) : Str.truthy s = true <-> s <> [].
Proof. destruct s; simpl; split; congruence. Qed.

Lemma lstrip_all_space (s : str) :
  forallb Str.isspace s = true -> Str.lstrip s = [].
Proof.
  induction s as [|c s IH]; simpl; [reflexivity|].
  intros H. apply andb_prop in H as [Hc Hs]. rewrite Hc. now apply IH.
Qed.

(** A string of whitespace only, the empty one included, strips to nothing. *)
Lemma strip_all_space (s : str) :
  forallb Str.isspace s = true -> Str.strip s = [].
Proof.
  intros H. unfold Str.strip, Str.rstrip. now rewrite (lstrip_all_space s H).
Qed.

Lemma split_not_nil (sep : char) (s : str) : Str.split sep s <> [].
Proof.
  induction s as [|c s IH]; simpl; [discriminate|].
  destruct (N.eqb c sep); [discriminate|].
  destruct (Str.split sep s); discriminate.
Qed.

Lemma split_no_sep (sep : char) (w : str) :
  ~ In sep w -> Str.split sep w = [w].
Proof.
  induction w as [|c w IH]; simpl; [reflexivity|].
  intros H. destruct (N.eqb_spec c sep) as [->|_]; [tauto|].
  rewrite IH; tauto.
Qed.

Lemma split_field (sep : char) (w rest : str) :
  ~ In sep w -> Str.split sep (w ++ sep :: rest) = w :: Str.split sep rest.
Proof.
  induction w as [|c w IH]; simpl.
  - now rewrite N.eqb_refl.
  - intros H. destruct (N.eqb_spec c sep) as [->|_]; [tauto|].
    rewrite IH; tauto.
Qed.

(** Splitting what [join] built gives the fields back, provided there is
    at least one and none holds the separator. *)
Lemma split_join (sep : char) (l : list str) :
  l <> [] -> Forall (fun w => ~ In sep w) l ->
  Str.split sep (Str.join [sep] l) = l.
Proof.
  induction l as [|x l IH]; [congruence|].
  intros _ H. inversion H as [|? ? Hx Hl]; subst.
  destruct l as [|y l].
  - simpl. now apply split_no_sep.
  - change (Str.join [sep] (x :: y :: l)) with (x ++ sep :: Str.join [sep] (y :: l)).
    rewrite split_field by assumption. f_equal. apply IH; [discriminate|assumption].
Qed.

(** ** The question list *)

Lemma parse_questions_In (questions_raw q : str) :
  In q (parse_questions questions_raw) ->
  exists line, In line (Str.split nl questions_raw)
               /\ Str.strip line <> [] /\ q = Str.strip line.
Proof.
  unfold parse_questions. intros H. apply in_map_iff in H as [line [Hq Hl]].
  apply filter_In in Hl as [Hl Ht]. apply truthy_true in Ht.
  exists line. auto.
Qed.

Lemma lstrip_split (s : str) :
  exists p, s = p ++ Str.lstrip s /\ forallb Str.isspace p = true.
Proof.
  induction s as [|c s [p [IH Hp]]]; simpl.
  - now exists [].
  - destruct (Str.isspace c) eqn:E.
    + exists (c :: p). simpl. rewrite E. split; [now f_equal|exact Hp].
    + now exists [].
Qed.

Lemma forallb_rev_true (f : char -> bool) (l : str) :
  forallb f l = true -> forallb f (rev l) = true.
Proof.
  rewrite !forallb_forall. intros H x Hx. apply H. now apply in_rev.
Qed.

(** What [strip] removes is whitespace, before and after what it keeps. *)
Lemma strip_split (s : str) :
  exists pre post,
    s = pre ++ Str.strip s ++ post
    /\ forallb Str.isspace pre = true /\ forallb Str.isspace post = true.
Proof.
  destruct (lstrip_split s) as [pre [H1 Hpre]].
  destruct (lstrip_split (rev (Str.lstrip s))) as [p [H2 Hp]].
  exists pre, (rev p). unfold Str.strip, Str.rstrip.
  split; [|split; [exact Hpre|now apply forallb_rev_true]].
  rewrite H1 at 1. f_equal.
  apply (f_equal (@rev char)) in H2.
  now rewrite rev_involutive, rev_app_distr in H2.
Qed.

Lemma strip_first (s : str) (c : char) (rest : str) :
  Str.strip s = c :: rest -> Str.isspace c = false.
Proof. intros H. assert (Hc := strip_clean s). now rewrite H in Hc. Qed.

Lemma strip_last (s : str) (init : str) (c : char) :
  Str.strip s = init ++ [c] -> Str.isspace c = false.
Proof.
  unfold Str.strip, Str.rstrip. intros H.
  apply (f_equal (@rev char)) in H.
  rewrite rev_involutive, rev_app_distr in H. simpl in H.
  assert (Hc := lstrip_clean (rev (Str.lstrip s))). now rewrite H in Hc.
Qed.

Lemma strip_nil_all_space (s : str) :
  Str.strip s = [] -> forallb Str.isspace s = true.
Proof.
  intros H. destruct (strip_split s) as [pre [post [Hs [Hpre Hpost]]]].
  rewrite Hs, H. simpl. rewrite forallb_app. now rewrite Hpre, Hpost.
Qed.

(** A line passes the filter of line 73 exactly when it holds a character
    that is not whitespace. *)
Lemma truthy_strip (line : str) :
  Str.truthy (Str.strip line) = negb (forallb Str.isspace line).
Proof.
  destruct (forallb Str.isspace line) eqn:E; simpl.
  - now rewrite (strip_all_space line E).
  - apply truthy_true. intros H. apply strip_nil_all_space in H. congruence.
Qed.

(** C10: the question list is the lines of the questions text that hold a
    character other than whitespace, each with its leading and trailing
    whitespace removed, in their order.  Every question stored is therefore
    not empty, not made of whitespace, starts and ends with a character that
    is not whitespace, is left unchanged by trimming it again, and is a line
    of the text up to whitespace at its two ends. *)
Theorem questions_never_blank :
  forall project_no client_name industry resp_type objectives questions_raw,
    let ctx := build_ctx project_no client_name industry resp_type objectives
                         questions_raw in
    questions ctx
      = map Str.strip
            (filter (fun line => negb (forallb Str.isspace line))
                    (Str.split nl questions_raw))
    /\ Forall (fun q =>
                 q <> []
                 /\ forallb Str.isspace q = false
                 /\ (exists c rest, q = c :: rest /\ Str.isspace c = false)
                 /\ (exists init c, q = init ++ [c] /\ Str.isspace c = false)
                 /\ Str.strip q = q
                 /\ exists pre post,
                      In (pre ++ q ++ post) (Str.split nl questions_raw)
                      /\ forallb Str.isspace pre = true
                      /\ forallb Str.isspace post = true)
              (questions ctx).
Proof.
  intros pn cn ind rt obj raw ctx. split.
  - unfold ctx, build_ctx, parse_questions. simpl. f_equal.
    apply filter_ext. intros line. apply truthy_strip.
  - apply Forall_forall. intros q Hq.
    apply parse_questions_In in Hq as [line [Hl [Hne ->]]].
    destruct (Str.strip line) as [|c rest] eqn:E; [congruence|].
    assert (Hc : Str.isspace c = false) by exact (strip_first line c rest E).
    destruct (exists_last (l := c :: rest) ltac:(discriminate)) as [init [d Hd]].
    assert (Hd' : Str.isspace d = false).
    { apply (strip_last line init d). now rewrite E. }
    split; [discriminate|]. split; [simpl; now rewrite Hc|].
    split; [now exists c, rest|]. split; [now exists init, d|].
    split; [rewrite <- E; apply strip_idempotent|].
    destruct (strip_split line) as [pre [post [Hs [Hpre Hpost]]]].
    exists pre, post. rewrite E in Hs. rewrite <- Hs. auto.
Qed.

(** ** Input validation *)

(** C7: with responses that are empty or only whitespace, or with an empty
    question list, the action stops on an input-validation error; the state
    is the one it started in, so no request was sent, and the outcome is the
    same whatever the provider would answer. *)
Theorem invalid_input_rejected_before_any_call :
  forall (p : provider) pdf_supported logo stamp raw ctx (w : world),
    forallb Str.isspace raw = true \/ questions ctx = [] ->
    exists f,
      generate p pdf_supported logo stamp raw ctx w = (Fail f, w)
      /\ InputValidationError f
      /\ calls (snd (generate p pdf_supported logo stamp raw ctx w)) = calls w.
Proof.
  intros p pdf logo stamp raw ctx w H.
  unfold generate, bind, validate.
  destruct (Str.strip raw) as [|c s] eqn:Es; simpl.
  - exists responses_missing. unfold InputValidationError. auto.
  - destruct H as [H|H].
    + apply strip_all_space in H. congruence.
    + rewrite H. simpl.
      exists questions_missing. unfold InputValidationError. auto.
Qed.

Lemma invalid_input_rejected_witness :
  exists f,
    generate (fun _ => inl (py "Hello!")) true None (py "2025-05-06 10:00")
             (py "   " ++ [nl]) sample_ctx initial_world
      = (Fail f, initial_world)
    /\ InputValidationError f
    /\ calls (snd (generate (fun _ => inl (py "Hello!")) true None
                            (py "2025-05-06 10:00") (py "   " ++ [nl])
                            sample_ctx initial_world)) = calls initial_world.
Proof.
  apply (invalid_input_rejected_before_any_call
           (fun _ => inl (py "Hello!")) true None (py "2025-05-06 10:00")
           (py "   " ++ [nl]) sample_ctx initial_world).
  left. vm_compute. reflexivity.
Defined.

(** ** The export sequence *)

Lemma append_each_map {A : Type} (f : A -> Flowable) (xs : list A)
                      (elems : list Flowable) :
  append_each f xs elems = elems ++ map f xs.
Proof.
  unfold append_each, append. revert elems.
  induction xs as [|x xs IH]; intros elems; simpl.
  - now rewrite app_nil_r.
  - rewrite IH, <- app_assoc. reflexivity.
Qed.

Lemma logo_block_append (logo : option (positive * positive)) :
  match logo with
  | Some (w, h) =>
      append [] (RLImage logo_path (40 * mm) (40 * mm * (Z.pos h # w)))
  | None => []
  end = logo_block logo.
Proof. destruct logo as [[w h]|]; reflexivity. Qed.

(** The list lines 189-215 build, written as one concatenation. *)
Lemma pdf_elems_unfolded logo stamp ctx doc :
  pdf_elems logo stamp ctx doc
  = logo_block logo
    ++ [Paragraph (meta ctx stamp) BodyText; Spacer 1 (5 * mm);
        Paragraph (py "Questions:") Heading2]
    ++ map bullet_paragraph (questions ctx)
    ++ [PageBreak; Paragraph (py "Executive Summary") Heading2]
    ++ map bullet_paragraph (Str.split nl (exec_text doc))
    ++ [PageBreak; Paragraph (py "Narrative Summary") Heading2;
        Paragraph (narrative doc) BodyText;
        PageBreak; Paragraph (py "Ideas Worth Exploring") Heading2]
    ++ map bullet_paragraph (Str.split nl (ideas_text doc))
    ++ [PageBreak; Paragraph (py "Top Quotes") Heading2]
    ++ map quote_paragraph (quotes doc).
Proof.
  unfold pdf_elems. rewrite logo_block_append.
  rewrite !append_each_map. unfold append, bullet_paragraph.
  repeat rewrite <- app_assoc. reflexivity.
Qed.

Lemma without_spacers_app (a b : list Flowable) :
  without_spacers (a ++ b) = without_spacers a ++ without_spacers b.
Proof. apply filter_app. Qed.

Lemma without_spacers_bullets (l : list str) :
  without_spacers (map bullet_paragraph l) = map bullet_paragraph l.
Proof. induction l as [|x l IH]; simpl; [reflexivity|]. now f_equal. Qed.

Lemma without_spacers_logo logo :
  without_spacers (logo_block logo) = logo_block logo.
Proof. destruct logo as [[w h]|]; reflexivity. Qed.

(** C8, on a document without executive items and without ideas: spacers
    aside, the list built is the sequence of the claim with one bullet
    paragraph [- ] more on the executive page and one more on the ideas
    page, where the claim has the bullets of the items, that is none.  The
    loops of lines 204 and 211 run over the lines of the joined text, the
    loops of lines 199 and 215 over the list itself. *)
Theorem export_bullets_depart_from_items :
  forall logo stamp ctx,
    without_spacers (pdf_elems logo stamp ctx empty_doc)
    = logo_block logo
      ++ [Paragraph (meta ctx stamp) BodyText; Paragraph (py "Questions:") Heading2]
      ++ map bullet_paragraph (questions ctx)
      ++ [PageBreak; Paragraph (py "Executive Summary") Heading2;
          Paragraph (py "- ") BodyText;
          PageBreak; Paragraph (py "Narrative Summary") Heading2;
          Paragraph [] BodyText;
          PageBreak; Paragraph (py "Ideas Worth Exploring") Heading2;
          Paragraph (py "- ") BodyText;
          PageBreak; Paragraph (py "Top Quotes") Heading2]
    /\ spec_export logo stamp ctx empty_doc
       = logo_block logo
         ++ [Paragraph (meta ctx stamp) BodyText; Paragraph (py "Questions:") Heading2]
         ++ map bullet_paragraph (questions ctx)
         ++ [PageBreak; Paragraph (py "Executive Summary") Heading2;
             PageBreak; Paragraph (py "Narrative Summary") Heading2;
             Paragraph [] BodyText;
             PageBreak; Paragraph (py "Ideas Worth Exploring") Heading2;
             PageBreak; Paragraph (py "Top Quotes") Heading2]
    /\ without_spacers (pdf_elems logo stamp ctx empty_doc)
       <> spec_export logo stamp ctx empty_doc.
Proof.
  intros logo stamp ctx.
  assert (H1 : without_spacers (pdf_elems logo stamp ctx empty_doc)
               = logo_block logo
                 ++ [Paragraph (meta ctx stamp) BodyText;
                     Paragraph (py "Questions:") Heading2]
                 ++ map bullet_paragraph (questions ctx)
                 ++ [PageBreak; Paragraph (py "Executive Summary") Heading2;
                     Paragraph (py "- ") BodyText;
                     PageBreak; Paragraph (py "Narrative Summary") Heading2;
                     Paragraph [] BodyText;
                     PageBreak; Paragraph (py "Ideas Worth Exploring") Heading2;
                     Paragraph (py "- ") BodyText;
                     PageBreak; Paragraph (py "Top Quotes") Heading2]).
  { rewrite pdf_elems_unfolded.
    rewrite !without_spacers_app, without_spacers_logo, without_spacers_bullets.
    reflexivity. }
  assert (H2 : spec_export logo stamp ctx empty_doc
               = logo_block logo
                 ++ [Paragraph (meta ctx stamp) BodyText;
                     Paragraph (py "Questions:") Heading2]
                 ++ map bullet_paragraph (questions ctx)
                 ++ [PageBreak; Paragraph (py "Executive Summary") Heading2;
                     PageBreak; Paragraph (py "Narrative Summary") Heading2;
                     Paragraph [] BodyText;
                     PageBreak; Paragraph (py "Ideas Worth Exploring") Heading2;
                     PageBreak; Paragraph (py "Top Quotes") Heading2])
    by reflexivity.
  split; [exact H1|]. split; [exact H2|].
  rewrite H1, H2. intros E.
  apply app_inv_head in E. apply (f_equal (@List.length Flowable)) in E.
  rewrite !length_app in E. simpl in E. lia.
Qed.

(** C9: with no executive items (or no ideas) the export still has exactly
    one bullet paragraph, of text [- ], between the heading and the page
    break: the joined text is empty and splitting it gives one empty line. *)
Theorem empty_items_export_one_empty_bullet :
  forall logo stamp ctx doc,
    (executive_items doc = [] ->
     exec_text doc = []
     /\ Str.split nl (exec_text doc) = [[]]
     /\ pdf_elems logo stamp ctx doc
        = (logo_block logo
           ++ [Paragraph (meta ctx stamp) BodyText; Spacer 1 (5 * mm);
               Paragraph (py "Questions:") Heading2]
           ++ map bullet_paragraph (questions ctx) ++ [PageBreak])
          ++ [Paragraph (py "Executive Summary") Heading2;
              Paragraph (py "- ") BodyText;
              PageBreak]
          ++ [Paragraph (py "Narrative Summary") Heading2;
              Paragraph (narrative doc) BodyText;
              PageBreak; Paragraph (py "Ideas Worth Exploring") Heading2]
          ++ map bullet_paragraph (Str.split nl (ideas_text doc))
          ++ [PageBreak; Paragraph (py "Top Quotes") Heading2]
          ++ map quote_paragraph (quotes doc))
    /\ (ideas doc = [] ->
        ideas_text doc = []
        /\ Str.split nl (ideas_text doc) = [[]]
        /\ pdf_elems logo stamp ctx doc
           = (logo_block logo
              ++ [Paragraph (meta ctx stamp) BodyText; Spacer 1 (5 * mm);
                  Paragraph (py "Questions:") Heading2]
              ++ map bullet_paragraph (questions ctx)
              ++ [PageBreak; Paragraph (py "Executive Summary") Heading2]
              ++ map bullet_paragraph (Str.split nl (exec_text doc))
              ++ [PageBreak; Paragraph (py "Narrative Summary") Heading2;
                  Paragraph (narrative doc) BodyText; PageBreak])
             ++ [Paragraph (py "Ideas Worth Exploring") Heading2;
                 Paragraph (py "- ") BodyText;
                 PageBreak]
             ++ [Paragraph (py "Top Quotes") Heading2]
             ++ map quote_paragraph (quotes doc)).
Proof.
  intros logo stamp ctx doc. split; intros H.
  - assert (He : exec_text doc = []) by (unfold exec_text; now rewrite H).
    split; [exact He|]. split; [now rewrite He|].
    rewrite pdf_elems_unfolded, He. rewrite <- !app_assoc. reflexivity.
  - assert (He : ideas_text doc = []) by (unfold ideas_text; now rewrite H).
    split; [exact He|]. split; [now rewrite He|].
    rewrite pdf_elems_unfolded, He. rewrite <- !app_assoc. reflexivity.
Qed.

Lemma empty_items_export_witness :
  exec_text empty_doc = []
  /\ Str.split nl (exec_text empty_doc) = [[]]
  /\ pdf_elems None (py "2025-05-06 10:00") sample_ctx empty_doc
     = (logo_block None
        ++ [Paragraph (meta sample_ctx (py "2025-05-06 10:00")) BodyText;
            Spacer 1 (5 * mm); Paragraph (py "Questions:") Heading2]
        ++ map bullet_paragraph (questions sample_ctx) ++ [PageBreak])
       ++ [Paragraph (py "Executive Summary") Heading2;
           Paragraph (py "- ") BodyText;
           PageBreak]
       ++ [Paragraph (py "Narrative Summary") Heading2;
           Paragraph (narrative empty_doc) BodyText;
           PageBreak; Paragraph (py "Ideas Worth Exploring") Heading2]
       ++ map bullet_paragraph (Str.split nl (ideas_text empty_doc))
       ++ [PageBreak; Paragraph (py "Top Quotes") Heading2]
       ++ map quote_paragraph (quotes empty_doc).
Proof.
  apply (empty_items_export_one_empty_bullet None (py "2025-05-06 10:00")
           sample_ctx empty_doc).
  reflexivity.
Defined.

(** ** The extractor *)

Lemma extract_sections_present root e i q :
  ET.find (py "Executive") root = Some e ->
  ET.find (py "Ideas") root = Some i ->
  ET.find (py "Quotes") root = Some q ->
  extract_sections root
  = Ok {| executive_items := map ET.text_or_empty (ET.findall (py "Item") e);
          narrative := ET.findtext (py "Narrative") [] root;
          ideas := map ET.text_or_empty (ET.findall (py "Idea") i);
          quotes := map (fun n => (ET.get (py "id") n, ET.text_or_empty n))
                        (ET.findall (py "Quote") q) |}.
Proof.
  intros He Hi Hq. unfold extract_sections, section_items, section_quotes.
  now rewrite He, Hi, Hq.
Qed.

Lemma xml_char_not_surrogate (c : char) :
  ET.is_xml_char c = true -> is_surrogate c = false.
Proof.
  unfold ET.is_xml_char, is_surrogate. intros H.
  destruct (N.leb_spec 55296 c), (N.leb_spec c 57343); simpl; try reflexivity.
  repeat rewrite ?orb_true_iff, ?andb_true_iff, ?N.eqb_eq, ?N.leb_le in H. lia.
Qed.

Lemma xml_chars_no_surrogate (xml : str) :
  forallb ET.is_xml_char xml = true -> existsb is_surrogate xml = false.
Proof.
  induction xml as [|c xml IH]; simpl; [reflexivity|].
  intros H. apply andb_prop in H as [Hc Hx].
  now rewrite (xml_char_not_surrogate c Hc), IH.
Qed.

Lemma parsed_no_surrogate (xml : str) (root : ET.Element) :
  ET.fromstring xml = ET.Parsed root -> existsb is_surrogate xml = false.
Proof.
  unfold ET.fromstring.
  destruct (forallb ET.is_xml_char xml) eqn:E; [|discriminate].
  intros _. now apply xml_chars_no_surrogate.
Qed.

Lemma extract_located response xml root :
  Re.search response = Some xml ->
  ET.fromstring xml = ET.Parsed root ->
  extract response = extract_sections root.
Proof.
  intros Hs Hp. unfold extract, extract_fragment.
  now rewrite Hs, (parsed_no_surrogate xml root Hp), Hp.
Qed.

(** C5: when the located fragment parses, has the other three sections, and
    its narrative element is absent or has no text, extraction succeeds and
    the narrative of the document is the empty string. *)
Theorem narrative_absent_or_textless_is_empty :
  forall response xml root,
    Re.search response = Some xml ->
    ET.fromstring xml = ET.Parsed root ->
    ET.find (py "Executive") root <> None ->
    ET.find (py "Ideas") root <> None ->
    ET.find (py "Quotes") root <> None ->
    (ET.find (py "Narrative") root = None
     \/ exists n, ET.find (py "Narrative") root = Some n
                  /\ (ET.text n = None \/ ET.text n = Some [])) ->
    exists doc, extract response = Ok doc /\ narrative doc = [].
Proof.
  intros response xml root Hs Hp He Hi Hq Hn.
  destruct (ET.find (py "Executive") root) as [e|] eqn:Ee; [|congruence].
  destruct (ET.find (py "Ideas") root) as [i|] eqn:Ei; [|congruence].
  destruct (ET.find (py "Quotes") root) as [q|] eqn:Eq; [|congruence].
  rewrite (extract_located _ _ _ Hs Hp).
  rewrite (extract_sections_present _ _ _ _ Ee Ei Eq).
  eexists. split; [reflexivity|]. simpl. unfold ET.findtext.
  destruct Hn as [Hn|[n [Hn Ht]]]; rewrite Hn; [reflexivity|].
  unfold ET.text_or_empty. destruct Ht as [Ht|Ht]; now rewrite Ht.
Qed.

Lemma narrative_textless_witness :
  exists doc, extract scenario_E = Ok doc /\ narrative doc = [].
Proof.
  refine (narrative_absent_or_textless_is_empty scenario_E scenario_E
            (ET.mkElement (py "Summary") [] None
               [ET.mkElement (py "Executive") [] None
                  [ET.mkElement (py "Item") [] (Some (py "A")) [] None] None;
                ET.mkElement (py "Narrative") [] None [] None;
                ET.mkElement (py "Ideas") [] None
                  [ET.mkElement (py "Idea") [] (Some (py "I")) [] None] None;
                ET.mkElement (py "Quotes") [] None [] None] None)
            _ _ _ _ _ _).
  - vm_compute. reflexivity.
  - vm_compute. reflexivity.
  - vm_compute. discriminate.
  - vm_compute. discriminate.
  - vm_compute. discriminate.
  - right. exists (ET.mkElement (py "Narrative") [] None [] None).
    split; [vm_compute; reflexivity|left; reflexivity].
Defined.

(** C4, as the code has it: for a reply whose located fragment parses and
    has the executive, ideas and quotes sections, extraction succeeds whether
    or not there is a narrative element; a missing narrative element gives
    the empty string, and a section that is present without children gives an
    empty sequence. *)
Theorem narrative_is_not_required :
  forall response xml root e i q,
    Re.search response = Some xml ->
    ET.fromstring xml = ET.Parsed root ->
    ET.find (py "Executive") root = Some e ->
    ET.find (py "Ideas") root = Some i ->
    ET.find (py "Quotes") root = Some q ->
    exists doc,
      extract response = Ok doc
      /\ (ET.find (py "Narrative") root = None -> narrative doc = [])
      /\ (ET.children e = [] -> executive_items doc = [])
      /\ (ET.children i = [] -> ideas doc = [])
      /\ (ET.children q = [] -> quotes doc = []).
Proof.
  intros response xml root e i q Hs Hp He Hi Hq.
  rewrite (extract_located _ _ _ Hs Hp).
  rewrite (extract_sections_present _ _ _ _ He Hi Hq).
  eexists. split; [reflexivity|]. simpl. unfold ET.findtext, ET.findall.
  repeat split; intros H; now rewrite H.
Qed.

Lemma narrative_is_not_required_witness :
  exists doc,
    extract reply_without_narrative = Ok doc
    /\ (ET.find (py "Narrative")
          (ET.mkElement (py "Summary") [] None
             [ET.mkElement (py "Executive") [] None
                [ET.mkElement (py "Item") [] (Some (py "A")) [] None] None;
              ET.mkElement (py "Ideas") [] None
                [ET.mkElement (py "Idea") [] (Some (py "I")) [] None] None;
              ET.mkElement (py "Quotes") [] None [] None] None) = None ->
        narrative doc = [])
    /\ (ET.children
          (ET.mkElement (py "Executive") [] None
             [ET.mkElement (py "Item") [] (Some (py "A")) [] None] None) = [] ->
        executive_items doc = [])
    /\ (ET.children
          (ET.mkElement (py "Ideas") [] None
             [ET.mkElement (py "Idea") [] (Some (py "I")) [] None] None) = [] ->
        ideas doc = [])
    /\ (ET.children (ET.mkElement (py "Quotes") [] None [] None) = [] ->
        quotes doc = []).
Proof.
  apply (narrative_is_not_required reply_without_narrative reply_without_narrative
           (ET.mkElement (py "Summary") [] None
              [ET.mkElement (py "Executive") [] None
                 [ET.mkElement (py "Item") [] (Some (py "A")) [] None] None;
               ET.mkElement (py "Ideas") [] None
                 [ET.mkElement (py "Idea") [] (Some (py "I")) [] None] None;
               ET.mkElement (py "Quotes") [] None [] None] None));
    vm_compute; reflexivity.
Defined.

(** C4, as stated, fails on the code: a reply that parses and has no
    narrative element is extracted without any error. *)
Lemma missing_narrative_counterexample :
  exists root,
    ET.fromstring reply_without_narrative = ET.Parsed root
    /\ ET.find (py "Narrative") root = None
    /\ extract reply_without_narrative
       = Ok {| executive_items := [py "A"]; narrative := [];
               ideas := [py "I"]; quotes := [] |}.
Proof.
  eexists. split; [vm_compute; reflexivity|].
  split; vm_compute; reflexivity.
Qed.

(** A reply without the ideas section parses, and line 158 then calls
    [findall] on the [None] that [root.find('Ideas')] returns: the run ends
    on an [AttributeError] that no [except] clause catches, where lines
    143-146 and 150-153 show an error and stop. *)
Lemma missing_section_is_not_handled :
  (exists root,
      ET.fromstring reply_without_ideas = ET.Parsed root
      /\ ET.find (py "Ideas") root = None)
  /\ extract reply_without_ideas
     = Fail (Uncaught
               (AttributeError "'NoneType' object has no attribute 'findall'")).
Proof.
  split; [eexists; split|]; vm_compute; reflexivity.
Qed.

(** C6, on a reply whose second quote has no [id] attribute: the pairs keep
    the order of the quote elements and their texts, the first pair carries
    its id, and the second carries [None] where the claim has the empty
    string; the box label and the export paragraph then read [None]. *)
Theorem quote_without_id_yields_None :
  exists doc,
    extract reply_quote_without_id = Ok doc
    /\ quotes doc = [(Some (py "R2"), py "Q2"); (None, py "Q1")]
    /\ quotes doc <> [(Some (py "R2"), py "Q2"); (Some [], py "Q1")]
    /\ map fst (quote_boxes doc) = [py "Quote R2"; py "Quote None"]
    /\ map quote_paragraph (quotes doc)
       = [Paragraph (py "<b>R2</b>: Q2") BodyText;
          Paragraph (py "<b>None</b>: Q1") BodyText].
Proof.
  eexists. split; [vm_compute; reflexivity|].
  repeat split; try (vm_compute; reflexivity).
  vm_compute. discriminate.
Qed.

(** ** The generate action *)

Lemma prompt_is_not_the_test_content ctx raw :
  content test_request <> prompt ctx raw.
Proof. unfold prompt, header. simpl. discriminate. Qed.

(** C1, on the code: a run that passes validation sends one request, the
    test request of lines 133-137, whose model is not [CLAUDE_MODEL] and
    whose content is not the composed prompt; the prompt is sent nowhere,
    and the run then ends on the unbound name [response] before the
    extractor receives any text. *)
Theorem valid_run_sends_only_the_test_request :
  forall (p : provider) pdf_supported logo stamp raw ctx reply,
    Str.strip raw <> [] ->
    questions ctx <> [] ->
    p test_request = inl reply ->
    generate p pdf_supported logo stamp raw ctx initial_world
    = (Fail (Uncaught (NameError "response")),
       {| calls := [test_request]; response := None |})
    /\ model test_request <> CLAUDE_MODEL
    /\ content test_request <> prompt ctx raw.
Proof.
  intros p pdf logo stamp raw ctx reply Hraw Hq Hp.
  split; [|split].
  - unfold generate, bind, validate, messages_create, read_response.
    destruct (Str.strip raw) as [|c s]; [congruence|].
    destruct (questions ctx) as [|q qs]; [congruence|].
    simpl. rewrite Hp. reflexivity.
  - vm_compute. discriminate.
  - apply prompt_is_not_the_test_content.
Qed.

Lemma valid_run_witness :
  generate (fun _ => inl (py "Hello!")) true None (py "2025-05-06 10:00")
           sample_raw sample_ctx initial_world
  = (Fail (Uncaught (NameError "response")),
     {| calls := [test_request]; response := None |})
  /\ model test_request <> CLAUDE_MODEL
  /\ content test_request <> prompt sample_ctx sample_raw.
Proof.
  apply (valid_run_sends_only_the_test_request
           (fun _ => inl (py "Hello!")) true None (py "2025-05-06 10:00")
           sample_raw sample_ctx (py "Hello!")).
  - vm_compute. discriminate.
  - vm_compute. discriminate.
  - reflexivity.
Defined.

(** ** Locating the fragment *)

Lemma app_cons_cases {A : Type} (c : A) (s a t : list A) :
  c :: s = a ++ t -> (a = [] /\ t = c :: s) \/ exists a', a = c :: a' /\ s = a' ++ t.
Proof.
  destruct a as [|x a']; simpl; intros H.
  - left. auto.
  - right. injection H as -> ->. eauto.
Qed.

Lemma lazy_any_then_Some (p s m : str) :
  Re.lazy_any_then p s = Some m ->
  exists a r, s = a ++ p ++ r /\ m = a ++ p
              /\ forall a' r', s = a' ++ p ++ r' -> (List.length a <= List.length a')%nat.
Proof.
  revert m. induction s as [|c s IH]; intros m; simpl.
  - destruct (Str.strip_prefix p []) as [r|] eqn:E; [|discriminate].
    intros H. injection H as <-. apply strip_prefix_Some in E.
    exists [], r. simpl. repeat split; auto. intros; lia.
  - destruct (Str.strip_prefix p (c :: s)) as [r|] eqn:E.
    + intros H. injection H as <-. apply strip_prefix_Some in E.
      exists [], r. simpl. repeat split; auto. intros; lia.
    + destruct (Re.lazy_any_then p s) as [m'|] eqn:El; [|discriminate].
      intros H. injection H as <-.
      destruct (IH m' eq_refl) as [a [r [Hs [Hm Hmin]]]].
      exists (c :: a), r. simpl. repeat split; try congruence.
      intros a' r' H'. apply app_cons_cases in H' as [[-> Ht]|[a'' [-> Hs']]].
      * symmetry in Ht. apply strip_prefix_Some in Ht. congruence.
      * simpl. apply Hmin in Hs'. lia.
Qed.

Lemma lazy_any_then_None (p s : str) :
  Re.lazy_any_then p s = None -> forall a r, s <> a ++ p ++ r.
Proof.
  induction s as [|c s IH]; simpl.
  - destruct (Str.strip_prefix p []) as [r|] eqn:E; [discriminate|].
    intros _ a r H. destruct a; [|discriminate]. simpl in H.
    apply strip_prefix_Some in H. congruence.
  - destruct (Str.strip_prefix p (c :: s)) as [r|] eqn:E; [discriminate|].
    destruct (Re.lazy_any_then p s) as [m'|]; [discriminate|].
    intros _ a r H. apply app_cons_cases in H as [[-> Ht]|[a' [-> Hs]]].
    + symmetry in Ht. apply strip_prefix_Some in Ht. congruence.
    + now apply (IH eq_refl a' r).
Qed.

Lemma match_here_Some (s m : str) :
  Re.match_here s = Some m ->
  exists mid post,
    s = Re.open_tag ++ mid ++ Re.close_tag ++ post
    /\ m = Re.open_tag ++ mid ++ Re.close_tag
    /\ forall mid' post', s = Re.open_tag ++ mid' ++ Re.close_tag ++ post' ->
                          (List.length mid <= List.length mid')%nat.
Proof.
  unfold Re.match_here.
  destruct (Str.strip_prefix Re.open_tag s) as [rest|] eqn:E; [|discriminate].
  apply strip_prefix_Some in E.
  destruct (Re.lazy_any_then Re.close_tag rest) as [m'|] eqn:El; [|discriminate].
  intros H. injection H as <-.
  apply lazy_any_then_Some in El as [mid [post [Hr [Hm Hmin]]]].
  exists mid, post. subst. repeat split; auto.
  intros mid' post' H. apply app_inv_head in H. now apply Hmin in H.
Qed.

Lemma match_here_None (s : str) :
  Re.match_here s = None ->
  forall mid post, s <> Re.open_tag ++ mid ++ Re.close_tag ++ post.
Proof.
  unfold Re.match_here.
  destruct (Str.strip_prefix Re.open_tag s) as [rest|] eqn:E.
  - apply strip_prefix_Some in E. subst.
    destruct (Re.lazy_any_then Re.close_tag rest) as [m'|] eqn:El; [discriminate|].
    intros _ mid post H. apply app_inv_head in H.
    now apply (lazy_any_then_None _ _ El mid post).
  - intros _ mid post H.
    apply (proj1 (strip_prefix_None _ _) E (mid ++ Re.close_tag ++ post)).
    exact H.
Qed.

Lemma search_unfold (s : str) :
  Re.search s
  = match Re.match_here s with
    | Some m => Some m
    | None => match s with [] => None | _ :: s' => Re.search s' end
    end.
Proof. destruct s; reflexivity. Qed.

Lemma search_None (s : str) :
  Re.search s = None -> forall pre mid post, ~ bounded s pre mid post.
Proof.
  unfold bounded. induction s as [|c s IH]; rewrite search_unfold.
  - intros _ pre mid post H. destruct pre; discriminate.
  - destruct (Re.match_here (c :: s)) eqn:E; [discriminate|].
    intros Hs pre mid post H.
    apply app_cons_cases in H as [[-> Ht]|[pre' [-> H]]].
    + symmetry in Ht. now apply (match_here_None _ E mid post).
    + now apply (IH Hs pre' mid post).
Qed.

Lemma search_Some (s m : str) :
  Re.search s = Some m ->
  exists pre mid post,
    bounded s pre mid post
    /\ m = Re.open_tag ++ mid ++ Re.close_tag
    /\ forall pre' mid' post',
         bounded s pre' mid' post' ->
         (List.length pre <= List.length pre')%nat
         /\ (List.length pre' = List.length pre -> (List.length mid <= List.length mid')%nat).
Proof.
  unfold bounded. revert m.
  assert (Hhere : forall s m, Re.match_here s = Some m ->
    exists pre mid post,
      s = pre ++ Re.open_tag ++ mid ++ Re.close_tag ++ post
      /\ m = Re.open_tag ++ mid ++ Re.close_tag
      /\ forall pre' mid' post',
           s = pre' ++ Re.open_tag ++ mid' ++ Re.close_tag ++ post' ->
           (List.length pre <= List.length pre')%nat
           /\ (List.length pre' = List.length pre -> (List.length mid <= List.length mid')%nat)).
  { intros s0 m0 E. apply match_here_Some in E as [mid [post [Hs [Hm Hmin]]]].
    exists [], mid, post. simpl.
    split; [assumption|]. split; [assumption|].
    intros pre' mid' post' H. split; [lia|].
    intros Hl. destruct pre'; [|discriminate]. now apply (Hmin mid' post'). }
  induction s as [|c s IH]; intros m; rewrite search_unfold.
  - discriminate.
  - destruct (Re.match_here (c :: s)) eqn:E.
    + intros H. injection H as <-. now apply Hhere.
    + intros Hs. destruct (IH m Hs) as [pre [mid [post [H1 [H2 Hmin]]]]].
      exists (c :: pre), mid, post.
      split; [exact (f_equal (cons c) H1)|]. split; [assumption|].
      intros pre' mid' post' H.
      apply app_cons_cases in H as [[-> Ht]|[pre'' [-> H]]].
      * symmetry in Ht. now apply (match_here_None _ E mid' post') in Ht.
      * simpl. apply Hmin in H. split; [lia|]. intros Hl. apply H. lia.
Qed.

Lemma occurs_false (p s : str) :
  occurs p s = false -> forall a r, s <> a ++ p ++ r.
Proof.
  induction s as [|c s IH]; simpl.
  - destruct (Str.strip_prefix p []) eqn:E; [discriminate|].
    intros _ a r H. destruct a; [|discriminate].
    simpl in H. apply strip_prefix_Some in H. congruence.
  - destruct (Str.strip_prefix p (c :: s)) eqn:E; [discriminate|].
    intros Ho a r H. apply app_cons_cases in H as [[-> Ht]|[a' [-> H]]].
    + symmetry in Ht. apply strip_prefix_Some in Ht. congruence.
    + now apply (IH Ho a' r).
Qed.

(** A reply in which the opening tag does not occur has no bounded fragment. *)
Lemma no_open_tag_not_bounded (raw : str) :
  occurs Re.open_tag raw = false -> forall pre mid post, ~ bounded raw pre mid post.
Proof.
  intros H pre mid post Hb. unfold bounded in Hb.
  now apply (occurs_false _ _ H pre (mid ++ Re.close_tag ++ post)).
Qed.

(** C3: a reply with no substring that runs from [<Summary>] to a later
    [</Summary>] ends extraction on the structure-not-found halt, and no
    document results; a reply that has one is searched successfully, the
    fragment found starts at the leftmost opening tag that a closing tag
    follows and ends at the first closing tag after it, text before and after
    it is left out, and that fragment is what is parsed. *)
Theorem fragment_location :
  forall raw,
    ((forall pre mid post, ~ bounded raw pre mid post) ->
     extract raw = Fail StructureNotFoundError
     /\ forall doc, extract raw <> Ok doc)
    /\ (forall pre mid post,
           bounded raw pre mid post ->
           exists pre0 mid0 post0,
             bounded raw pre0 mid0 post0
             /\ Re.search raw = Some (Re.open_tag ++ mid0 ++ Re.close_tag)
             /\ extract raw = extract_fragment (Re.open_tag ++ mid0 ++ Re.close_tag)
             /\ forall pre' mid' post',
                  bounded raw pre' mid' post' ->
                  (List.length pre0 <= List.length pre')%nat
                  /\ (List.length pre' = List.length pre0 ->
                      (List.length mid0 <= List.length mid')%nat)).
Proof.
  intros raw. split.
  - intros Hno. unfold extract.
    destruct (Re.search raw) as [m|] eqn:E.
    + apply search_Some in E as [pre [mid [post [Hb _]]]].
      now apply Hno in Hb.
    + split; [reflexivity|discriminate].
  - intros pre mid post Hb. unfold extract.
    destruct (Re.search raw) as [m|] eqn:E.
    + apply search_Some in E as [pre0 [mid0 [post0 [Hb0 [-> Hmin]]]]].
      exists pre0, mid0, post0.
      split; [assumption|]. split; [reflexivity|]. split; [reflexivity|].
      exact Hmin.
    + now apply (search_None _ E) in Hb.
Qed.

Lemma fragment_location_witness :
  (extract reply_without_root = Fail StructureNotFoundError
   /\ forall doc, extract reply_without_root <> Ok doc)
  /\ exists pre0 mid0 post0,
       bounded reply_two_closings pre0 mid0 post0
       /\ Re.search reply_two_closings
          = Some (Re.open_tag ++ mid0 ++ Re.close_tag)
       /\ extract reply_two_closings
          = extract_fragment (Re.open_tag ++ mid0 ++ Re.close_tag)
       /\ forall pre' mid' post',
            bounded reply_two_closings pre' mid' post' ->
            (List.length pre0 <= List.length pre')%nat
            /\ (List.length pre' = List.length pre0 ->
                (List.length mid0 <= List.length mid')%nat).
Proof.
  split.
  - apply (proj1 (fragment_location reply_without_root)).
    apply no_open_tag_not_bounded. vm_compute. reflexivity.
  - apply (proj2 (fragment_location reply_two_closings)
             (py "Sure: ")
             (py "<Executive/><Ideas/><Quotes/></Summary> and ")
             []).
    vm_compute. reflexivity.
Defined.

(** ** The cost estimate *)

(** X1: the token estimate is at least one, it is one for fewer than eight
    characters (no text and [None] included), and otherwise it is the
    quarter of the length rounded down. *)
Theorem estimate_tokens_bounds :
  forall raw : option str,
    let n := N.of_nat (List.length (match raw with Some s => s | None => [] end)) in
    1 <= estimate_tokens raw
    /\ (n < 8 -> estimate_tokens raw = 1)
    /\ (4 <= n -> 4 * estimate_tokens raw <= n < 4 * estimate_tokens raw + 4).
Proof.
  intros raw n. unfold estimate_tokens. fold n.
  assert (Hd := N.div_mod n 4 ltac:(discriminate)).
  assert (Hm := N.mod_lt n 4 ltac:(discriminate)).
  generalize dependent (n mod 4). generalize dependent (n / 4).
  intros q r Hd Hm. lia.
Qed.

Lemma estimate_tokens_bounds_witness :
  4 * estimate_tokens (Some sample_raw)
  <= N.of_nat (List.length sample_raw)
  < 4 * estimate_tokens (Some sample_raw) + 4.
Proof.
  apply (estimate_tokens_bounds (Some sample_raw)).
  vm_compute. discriminate.
Defined.

(** X2: a longer text never has a lower token estimate. *)
Theorem estimate_tokens_monotone :
  forall a b : str,
    (List.length a <= List.length b)%nat ->
    estimate_tokens (Some a) <= estimate_tokens (Some b).
Proof.
  intros a b H. unfold estimate_tokens.
  apply N.max_le_compat_l. apply N.Div0.div_le_mono. lia.
Qed.

Lemma estimate_tokens_monotone_witness :
  estimate_tokens (Some (py "short")) <= estimate_tokens (Some sample_raw).
Proof.
  apply (estimate_tokens_monotone (py "short") sample_raw).
  vm_compute. lia.
Defined.

(** ** More on the question list *)

Lemma lstrip_In (c : char) (s : str) : In c (Str.lstrip s) -> In c s.
Proof.
  destruct (lstrip_suffix s) as [p Hp]. intros H. rewrite Hp.
  apply in_or_app. now right.
Qed.

Lemma strip_In (c : char) (s : str) : In c (Str.strip s) -> In c s.
Proof.
  unfold Str.strip, Str.rstrip. intros H.
  apply in_rev in H. apply lstrip_In in H. apply in_rev in H.
  now apply lstrip_In.
Qed.

Lemma split_fields_no_sep (sep : char) (s : str) :
  Forall (fun w => ~ In sep w) (Str.split sep s).
Proof.
  induction s as [|c s IH]; simpl.
  - constructor; [tauto|constructor].
  - destruct (N.eqb_spec c sep) as [->|Hc].
    + constructor; [tauto|exact IH].
    + destruct (Str.split sep s) as [|w ws]; [constructor; [|constructor]|].
      * simpl. intuition congruence.
      * inversion IH as [|? ? Hw Hws]; subst. constructor; [|assumption].
        simpl. intuition congruence.
Qed.

Lemma parse_questions_no_newline (questions_raw : str) :
  Forall (fun q => ~ In nl q) (parse_questions questions_raw).
Proof.
  apply Forall_forall. intros q Hq.
  apply parse_questions_In in Hq as [line [Hl [_ ->]]].
  intros Hn. apply strip_In in Hn.
  assert (H := split_fields_no_sep nl questions_raw).
  rewrite Forall_forall in H. exact (H line Hl Hn).
Qed.

Lemma bullet_no_newline (q : str) : ~ In nl q -> ~ In nl (bullet q).
Proof.
  unfold bullet. intros H Hin. apply in_app_or in Hin as [Hin|Hin]; [|tauto].
  vm_compute in Hin. intuition discriminate.
Qed.

(** X3: no question of a context built from the form holds a newline, and
    when there is at least one question the question block of the prompt
    header has one line [- question] per question, in their order. *)
Theorem header_lists_one_line_per_question :
  forall project_no client_name industry resp_type objectives questions_raw,
    let ctx := build_ctx project_no client_name industry resp_type objectives
                         questions_raw in
    Forall (fun q => ~ In nl q) (questions ctx)
    /\ (questions ctx <> [] ->
        Str.split nl (questions_list ctx) = map bullet (questions ctx)).
Proof.
  intros pn cn ind rt obj raw ctx.
  assert (Hn : Forall (fun q => ~ In nl q) (questions ctx))
    by apply parse_questions_no_newline.
  split; [exact Hn|]. intros Hne. unfold questions_list.
  apply split_join.
  - destruct (questions ctx); [congruence|discriminate].
  - apply Forall_forall. intros b Hb. apply in_map_iff in Hb as [q [<- Hq]].
    apply bullet_no_newline. rewrite Forall_forall in Hn. now apply Hn.
Qed.

Lemma header_lists_one_line_per_question_witness :
  Str.split nl (questions_list sample_ctx) = map bullet (questions sample_ctx).
Proof.
  apply (header_lists_one_line_per_question
           (py "P-17") (py "Acme") (py "Retail") (py "Store managers")
           (py "Understand churn")
           (py "  Why did you leave?  " ++ [nl] ++ py "   " ++ [nl]
            ++ py "What would bring you back?")).
  vm_compute. discriminate.
Defined.

Lemma keep_clean_questions (qs : list str) :
  Forall (fun q => Str.strip q <> [] /\ Str.strip q = q) qs ->
  map Str.strip (filter (fun q => Str.truthy (Str.strip q)) qs) = qs.
Proof.
  induction 1 as [|q qs [Hne Hq] _ IH]; simpl; [reflexivity|].
  apply truthy_true in Hne. rewrite Hne. simpl. now rewrite Hq, IH.
Qed.

(** X4: the question list survives the store: joining the questions of a
    context with newlines, as the form is prefilled from a saved project,
    and reading that text again gives the same questions. *)
Theorem questions_round_trip :
  forall questions_raw,
    parse_questions (Str.join [nl] (parse_questions questions_raw))
    = parse_questions questions_raw.
Proof.
  intros raw. destruct (parse_questions raw) as [|q qs] eqn:E; [reflexivity|].
  rewrite <- E. unfold parse_questions at 1.
  rewrite split_join.
  - apply keep_clean_questions. apply Forall_forall. intros x Hx.
    apply parse_questions_In in Hx as [line [_ [Hne ->]]].
    now rewrite strip_idempotent.
  - rewrite E. discriminate.
  - apply parse_questions_no_newline.
Qed.

Lemma split_all_space (s : str) :
  forallb Str.isspace s = true ->
  Forall (fun line => forallb Str.isspace line = true) (Str.split nl s).
Proof.
  induction s as [|c s IH]; simpl.
  - intros _. constructor; [reflexivity|constructor].
  - intros H. apply andb_prop in H as [Hc Hs]. specialize (IH Hs).
    destruct (N.eqb c nl).
    + constructor; [reflexivity|exact IH].
    + destruct (Str.split nl s) as [|w ws]; [constructor; [|constructor]|].
      * simpl. now rewrite Hc.
      * inversion IH as [|? ? Hw Hws]; subst. constructor; [|assumption].
        simpl. now rewrite Hc, Hw.
Qed.

Lemma parse_questions_blank (questions_raw : str) :
  forallb Str.isspace questions_raw = true -> parse_questions questions_raw = [].
Proof.
  intros H. apply split_all_space in H. unfold parse_questions.
  induction H as [|line ls Hl _ IH]; simpl; [reflexivity|].
  rewrite (strip_all_space line Hl). simpl. exact IH.
Qed.

(** X5: a questions text of whitespace and newlines only gives an empty
    question list, and the action then stops on the missing-questions error
    with nothing sent, whatever the responses that are not blank. *)
Theorem blank_questions_text_is_rejected :
  forall (p : provider) pdf_supported logo stamp raw
         project_no client_name industry resp_type objectives questions_raw
         (w : world),
    forallb Str.isspace questions_raw = true ->
    Str.strip raw <> [] ->
    let ctx := build_ctx project_no client_name industry resp_type objectives
                         questions_raw in
    questions ctx = []
    /\ generate p pdf_supported logo stamp raw ctx w = (Fail questions_missing, w).
Proof.
  intros p pdf logo stamp raw pn cn ind rt obj qraw w Hq Hraw ctx.
  assert (E : questions ctx = []) by (apply parse_questions_blank; exact Hq).
  split; [exact E|].
  unfold generate, bind, validate. rewrite E.
  destruct (Str.strip raw); [congruence|reflexivity].
Qed.

Lemma blank_questions_text_witness :
  questions (build_ctx (py "P-17") [] [] [] [] (py "  " ++ [nl; 9; nl])) = []
  /\ generate (fun _ => inl (py "Hello!")) true None (py "2025-05-06 10:00")
              sample_raw
              (build_ctx (py "P-17") [] [] [] [] (py "  " ++ [nl; 9; nl]))
              initial_world
     = (Fail questions_missing, initial_world).
Proof.
  apply (blank_questions_text_is_rejected
           (fun _ => inl (py "Hello!")) true None (py "2025-05-06 10:00")
           sample_raw (py "P-17") [] [] [] [] (py "  " ++ [nl; 9; nl])
           initial_world).
  - vm_compute. reflexivity.
  - vm_compute. discriminate.
Defined.

(** ** More on the export sequence *)

Lemma split_app_sep (sep : char) (a b : str) :
  Str.split sep (a ++ sep :: b) = Str.split sep a ++ Str.split sep b.
Proof.
  induction a as [|c a IH]; simpl.
  - now rewrite N.eqb_refl.
  - destruct (N.eqb c sep); [now rewrite IH|].
    rewrite IH. destruct (Str.split sep a) as [|w ws] eqn:E; [|reflexivity].
    now apply split_not_nil in E.
Qed.

(** Splitting what [join] built gives the lines of every field, in order. *)
Lemma split_join_lines (sep : char) (l : list str) :
  l <> [] ->
  Str.split sep (Str.join [sep] l) = flat_map (Str.split sep) l.
Proof.
  induction l as [|x l IH]; [congruence|]. intros _.
  destruct l as [|y l].
  - simpl. now rewrite app_nil_r.
  - change (Str.join [sep] (x :: y :: l)) with (x ++ sep :: Str.join [sep] (y :: l)).
    rewrite split_app_sep, IH by discriminate. reflexivity.
Qed.

(** X6: with at least one executive item and one idea, the export has one
    bullet for every line of every item, in order: an item that holds
    newlines is spread over several bullets, and an empty item gives an
    empty bullet. *)
Theorem export_bullets_are_item_lines :
  forall logo stamp ctx doc,
    executive_items doc <> [] ->
    ideas doc <> [] ->
    pdf_elems logo stamp ctx doc
    = logo_block logo
      ++ [Paragraph (meta ctx stamp) BodyText; Spacer 1 (5 * mm);
          Paragraph (py "Questions:") Heading2]
      ++ map bullet_paragraph (questions ctx)
      ++ [PageBreak; Paragraph (py "Executive Summary") Heading2]
      ++ map bullet_paragraph (flat_map (Str.split nl) (executive_items doc))
      ++ [PageBreak; Paragraph (py "Narrative Summary") Heading2;
          Paragraph (narrative doc) BodyText;
          PageBreak; Paragraph (py "Ideas Worth Exploring") Heading2]
      ++ map bullet_paragraph (flat_map (Str.split nl) (ideas doc))
      ++ [PageBreak; Paragraph (py "Top Quotes") Heading2]
      ++ map quote_paragraph (quotes doc).
Proof.
  intros logo stamp ctx doc He Hi.
  rewrite pdf_elems_unfolded. unfold exec_text, ideas_text.
  now rewrite !split_join_lines by assumption.
Qed.

Lemma export_bullets_witness :
  pdf_elems None (py "2025-05-06 10:00") sample_ctx
    {| executive_items := [py "A" ++ [nl] ++ py "B"; []]; narrative := py "N";
       ideas := [py "I"]; quotes := [] |}
  = [Paragraph (meta sample_ctx (py "2025-05-06 10:00")) BodyText;
     Spacer 1 (5 * mm); Paragraph (py "Questions:") Heading2]
    ++ map bullet_paragraph (questions sample_ctx)
    ++ [PageBreak; Paragraph (py "Executive Summary") Heading2]
    ++ map bullet_paragraph [py "A"; py "B"; []]
    ++ [PageBreak; Paragraph (py "Narrative Summary") Heading2;
        Paragraph (py "N") BodyText;
        PageBreak; Paragraph (py "Ideas Worth Exploring") Heading2]
    ++ map bullet_paragraph [py "I"]
    ++ [PageBreak; Paragraph (py "Top Quotes") Heading2].
Proof.
  refine (eq_trans
            (export_bullets_are_item_lines None (py "2025-05-06 10:00") sample_ctx
               {| executive_items := [py "A" ++ [nl] ++ py "B"; []];
                  narrative := py "N"; ideas := [py "I"]; quotes := [] |} _ _) _).
  - simpl. discriminate.
  - simpl. discriminate.
  - vm_compute. reflexivity.
Defined.

Lemma page_breaks_app (a b : list Flowable) :
  page_breaks (a ++ b) = page_breaks a ++ page_breaks b.
Proof. apply filter_app. Qed.

Lemma headings_app (a b : list Flowable) :
  headings (a ++ b) = headings a ++ headings b.
Proof. apply flat_map_app. Qed.

Lemma body_paragraphs_plain {A : Type} (f : A -> str) (l : list A) :
  page_breaks (map (fun x => Paragraph (f x) BodyText) l) = []
  /\ headings (map (fun x => Paragraph (f x) BodyText) l) = [].
Proof. induction l as [|x l [IH1 IH2]]; simpl; auto. Qed.

Lemma logo_block_plain logo :
  page_breaks (logo_block logo) = [] /\ headings (logo_block logo) = [].
Proof. destruct logo as [[w h]|]; simpl; auto. Qed.

(** X7: whatever the document, the context and the logo, the export has
    exactly four page breaks and exactly five headings, which read Questions,
    Executive Summary, Narrative Summary, Ideas Worth Exploring and Top
    Quotes, in this order; no extracted text can add a page or a heading. *)
Theorem export_page_structure :
  forall logo stamp ctx doc,
    page_breaks (pdf_elems logo stamp ctx doc)
    = [PageBreak; PageBreak; PageBreak; PageBreak]
    /\ headings (pdf_elems logo stamp ctx doc)
       = [py "Questions:"; py "Executive Summary"; py "Narrative Summary";
          py "Ideas Worth Exploring"; py "Top Quotes"].
Proof.
  intros logo stamp ctx doc. rewrite pdf_elems_unfolded.
  unfold bullet_paragraph, quote_paragraph.
  destruct (logo_block_plain logo) as [Lb Lh].
  destruct (body_paragraphs_plain bullet (questions ctx)) as [Qb Qh].
  destruct (body_paragraphs_plain bullet (Str.split nl (exec_text doc))) as [Eb Eh].
  destruct (body_paragraphs_plain bullet (Str.split nl (ideas_text doc))) as [Ib Ih].
  destruct (body_paragraphs_plain
              (fun q : option str * str => py "<b>" ++ fmt (fst q) ++ py "</b>: " ++ snd q)
              (quotes doc)) as [Tb Th].
  split.
  - rewrite !page_breaks_app, Lb, Qb, Eb, Ib, Tb. reflexivity.
  - rewrite !headings_app, Lh, Qh, Eh, Ih, Th. reflexivity.
Qed.

(** ** Prose around the fragment *)

Lemma strip_prefix_app (p s r t : str) :
  Str.strip_prefix p s = Some r -> Str.strip_prefix p (s ++ t) = Some (r ++ t).
Proof.
  intros H. apply strip_prefix_Some in H. subst.
  apply strip_prefix_Some. now rewrite app_assoc.
Qed.

Lemma strip_prefix_None_app (p s t : str) :
  Str.strip_prefix p s = None ->
  (List.length p <= List.length s)%nat ->
  Str.strip_prefix p (s ++ t) = None.
Proof.
  revert s. induction p as [|x p IH]; intros s; simpl; [discriminate|].
  destruct s as [|y s]; simpl; [lia|].
  destruct (N.eqb x y); [|reflexivity].
  intros H Hl. apply IH; [exact H|lia].
Qed.

Lemma lazy_any_then_length (p s m : str) :
  Re.lazy_any_then p s = Some m -> (List.length p <= List.length s)%nat.
Proof.
  intros H. apply lazy_any_then_Some in H as [a [r [-> _]]].
  rewrite !length_app. lia.
Qed.

Lemma lazy_any_then_app (p s m t : str) :
  Re.lazy_any_then p s = Some m -> Re.lazy_any_then p (s ++ t) = Some m.
Proof.
  revert m. induction s as [|c s IH]; intros m; simpl.
  - destruct (Str.strip_prefix p []) as [r|] eqn:E; [|discriminate].
    intros H. injection H as <-.
    apply strip_prefix_Some in E. destruct p; [|discriminate].
    now destruct t.
  - destruct (Str.strip_prefix p (c :: s)) as [r|] eqn:E.
    + intros H. injection H as <-.
      change (c :: s ++ t) with ((c :: s) ++ t).
      now rewrite (strip_prefix_app _ _ _ t E).
    + destruct (Re.lazy_any_then p s) as [m'|] eqn:El; [|discriminate].
      intros H. injection H as <-.
      change (c :: s ++ t) with ((c :: s) ++ t).
      rewrite (strip_prefix_None_app _ _ t E).
      * now rewrite (IH m' eq_refl).
      * apply lazy_any_then_length in El. simpl. lia.
Qed.

Lemma match_here_app (s m t : str) :
  Re.match_here s = Some m -> Re.match_here (s ++ t) = Some m.
Proof.
  unfold Re.match_here.
  destruct (Str.strip_prefix Re.open_tag s) as [rest|] eqn:E; [|discriminate].
  rewrite (strip_prefix_app _ _ _ t E).
  destruct (Re.lazy_any_then Re.close_tag rest) as [m'|] eqn:El; [|discriminate].
  now rewrite (lazy_any_then_app _ _ _ t El).
Qed.

Lemma match_here_needs_lt (c : char) (s : str) :
  c <> lt_sign -> Re.match_here (c :: s) = None.
Proof.
  intros H. unfold Re.match_here.
  assert (E : Str.strip_prefix Re.open_tag (c :: s) = None).
  { apply strip_prefix_None. intros r Hr. injection Hr as Hc _.
    unfold lt_sign in H. congruence. }
  now rewrite E.
Qed.

Lemma search_skips_prose (pre s : str) :
  ~ In lt_sign pre -> Re.search (pre ++ s) = Re.search s.
Proof.
  induction pre as [|c pre IH]; [reflexivity|].
  intros H. simpl app. rewrite search_unfold.
  rewrite match_here_needs_lt by (simpl in H; tauto).
  apply IH. simpl in H. tauto.
Qed.

(** X8: a block that runs from [<Summary>] to its first [</Summary>] is
    extracted the same way whatever follows it and whatever text without a
    less-than sign precedes it: the prose a model puts around the block does
    not change the result. *)
Theorem prose_around_block_is_ignored :
  forall pre block post,
    ~ In lt_sign pre ->
    Re.match_here block = Some block ->
    Re.search (pre ++ block ++ post) = Some block
    /\ extract (pre ++ block ++ post) = extract block.
Proof.
  intros pre block post Hpre Hb.
  assert (H1 : Re.search (pre ++ block ++ post) = Some block).
  { rewrite search_skips_prose by assumption.
    rewrite search_unfold. now rewrite (match_here_app _ _ post Hb). }
  assert (H2 : Re.search block = Some block).
  { rewrite search_unfold. now rewrite Hb. }
  split; [exact H1|]. unfold extract. now rewrite H1, H2.
Qed.

Lemma prose_around_block_witness :
  Re.search (py "Here is the summary you asked for: " ++ scenario_A
             ++ py " Let me know if <Summary> needs changes.</Summary>")
  = Some scenario_A
  /\ extract (py "Here is the summary you asked for: " ++ scenario_A
              ++ py " Let me know if <Summary> needs changes.</Summary>")
     = extract scenario_A.
Proof.
  apply (prose_around_block_is_ignored
           (py "Here is the summary you asked for: ") scenario_A
           (py " Let me know if <Summary> needs changes.</Summary>")).
  - vm_compute. intuition discriminate.
  - vm_compute. reflexivity.
Defined.

(** ** Every run of the action *)

(** X9: started with the name [response] unbound, the action never yields a
    report, for any input and any provider: it stops on input validation
    with nothing sent, or it sends the one test request and ends on the
    error the provider raised or on the unbound name.  No request ever
    carries the responses or the context. *)
Theorem no_run_yields_a_report :
  forall (p : provider) pdf_supported logo stamp raw ctx (w : world),
    response w = None ->
    run_end p w (generate p pdf_supported logo stamp raw ctx w)
    /\ forall report w', generate p pdf_supported logo stamp raw ctx w
                         <> (Ok report, w').
Proof.
  intros p pdf logo stamp raw ctx w Hw.
  destruct w as [sent r]. simpl in Hw. subst r.
  set (w := {| calls := sent; response := None |}).
  assert (H : run_end p w (generate p pdf logo stamp raw ctx w)).
  { unfold generate, bind, validate, messages_create, read_response.
    destruct (Str.strip raw) as [|c s]; simpl.
    - apply end_invalid. left. reflexivity.
    - destruct (questions ctx) as [|q qs]; simpl.
      + apply end_invalid. right. reflexivity.
      + destruct (p test_request) as [reply|msg] eqn:Ep; simpl.
        * now apply (end_unbound p w reply).
        * now apply (end_provider p w msg). }
  split; [exact H|]. intros report w' E. rewrite E in H. inversion H.
Qed.

Lemma no_run_yields_a_report_witness :
  run_end (fun _ => inr (py "rate limited")) initial_world
          (generate (fun _ => inr (py "rate limited")) true None
                    (py "2025-05-06 10:00") sample_raw sample_ctx initial_world)
  /\ forall report w',
       generate (fun _ => inr (py "rate limited")) true None
                (py "2025-05-06 10:00") sample_raw sample_ctx initial_world
       <> (Ok report, w').
Proof.
  apply (no_run_yields_a_report (fun _ => inr (py "rate limited")) true None
           (py "2025-05-06 10:00") sample_raw sample_ctx initial_world).
  reflexivity.
Defined.

(** ** The project store *)

Lemma eqb_refl (a : str) : Str.eqb a a = true.
Proof. now apply eqb_eq. Qed.

Lemma eqb_neq (a b : str) : a <> b -> Str.eqb a b = false.
Proof.
  intros H. destruct (Str.eqb a b) eqn:E; [|reflexivity].
  apply eqb_eq in E. contradiction.
Qed.

Lemma dict_get_set_same (k : str) (v : Saved) (d : Projects) :
  dict_get k (dict_set k v d) = Some v.
Proof.
  induction d as [|[k' v'] d IH]; simpl.
  - now rewrite eqb_refl.
  - destruct (Str.eqb k' k) eqn:E; simpl; now rewrite E.
Qed.

Lemma dict_get_set_other (k k' : str) (v : Saved) (d : Projects) :
  k' <> k -> dict_get k' (dict_set k v d) = dict_get k' d.
Proof.
  intros H. induction d as [|[k0 v0] d IH]; simpl.
  - rewrite eqb_neq; [reflexivity|congruence].
  - destruct (Str.eqb k0 k) eqn:E; simpl.
    + apply eqb_eq in E. subst k0.
      rewrite eqb_neq; [reflexivity|congruence].
    + now rewrite IH.
Qed.

Lemma dict_set_twice (k : str) (v : Saved) (d : Projects) :
  dict_set k v (dict_set k v d) = dict_set k v d.
Proof.
  induction d as [|[k' v'] d IH]; simpl.
  - now rewrite eqb_refl.
  - destruct (Str.eqb k' k) eqn:E; simpl; rewrite E; [reflexivity|now rewrite IH].
Qed.

Lemma dict_get_None (k : str) (d : Projects) :
  dict_get k d = None <-> ~ In k (dict_keys d).
Proof.
  induction d as [|[k' v'] d IH]; simpl; [tauto|].
  destruct (Str.eqb k' k) eqn:E.
  - apply eqb_eq in E. split; [discriminate|tauto].
  - assert (k' <> k) by (intros ->; rewrite eqb_refl in E; discriminate).
    tauto.
Qed.

Lemma dict_keys_set (k : str) (v : Saved) (d : Projects) :
  dict_keys (dict_set k v d)
  = match dict_get k d with
    | Some _ => dict_keys d
    | None => dict_keys d ++ [k]
    end.
Proof.
  induction d as [|[k' v'] d IH]; simpl; [reflexivity|].
  destruct (Str.eqb k' k) eqn:E; simpl; [reflexivity|].
  rewrite IH. now destruct (dict_get k d).
Qed.

Lemma NoDup_snoc (k : str) (l : list str) :
  NoDup l -> ~ In k l -> NoDup (l ++ [k]).
Proof.
  induction 1 as [|x l Hx Hl IH]; simpl; intros Hk.
  - constructor; [tauto|constructor].
  - constructor.
    + intros Hin. apply in_app_or in Hin as [Hin|[->|[]]]; tauto.
    + apply IH. tauto.
Qed.

(** X10: when the project number is not empty, the run stores its context
    under that number, with every key present, and leaves every other
    project as it was; with an empty project number nothing is stored. *)
Theorem context_is_saved_under_its_number :
  forall projects sel typed edits,
    let ctx := fst (context_step projects sel typed edits) in
    let projects' := snd (context_step projects sel typed edits) in
    project_no ctx = choose_project_no sel typed
    /\ (project_no ctx <> [] ->
        dict_get (project_no ctx) projects' = Some (saved_of ctx)
        /\ forall k, k <> project_no ctx -> dict_get k projects' = dict_get k projects)
    /\ (project_no ctx = [] -> projects' = projects).
Proof.
  intros projects sel typed edits. unfold context_step. simpl.
  set (pn := choose_project_no sel typed).
  split; [reflexivity|]. split.
  - intros Hne. apply truthy_true in Hne. rewrite Hne.
    split; [apply dict_get_set_same|].
    intros k Hk. now apply dict_get_set_other.
  - intros ->. reflexivity.
Qed.

Lemma context_is_saved_witness :
  dict_get (py "P-17")
           (snd (context_step [(py "P-01", no_defaults)] NEW (py "P-17") untouched))
  = Some (saved_of (fst (context_step [(py "P-01", no_defaults)] NEW (py "P-17")
                                      untouched)))
  /\ forall k, k <> py "P-17" ->
               dict_get k (snd (context_step [(py "P-01", no_defaults)] NEW
                                             (py "P-17") untouched))
               = dict_get k [(py "P-01", no_defaults)].
Proof.
  apply (context_is_saved_under_its_number
           [(py "P-01", no_defaults)] NEW (py "P-17") untouched).
  vm_compute. discriminate.
Defined.

Lemma reload_saved (ctx : ProjectContext) (projects : Projects) (typed' : str) :
  project_no ctx <> [] ->
  project_no ctx <> NEW ->
  parse_questions (Str.join [nl] (questions ctx)) = questions ctx ->
  context_step (dict_set (project_no ctx) (saved_of ctx) projects)
               (project_no ctx) typed' untouched
  = (ctx, dict_set (project_no ctx) (saved_of ctx) projects).
Proof.
  intros Hne Hnew Hq. unfold context_step.
  assert (Hc : choose_project_no (project_no ctx) typed' = project_no ctx).
  { unfold choose_project_no. now rewrite (eqb_neq _ _ Hnew). }
  rewrite Hc. unfold load_defaults.
  rewrite (proj2 (truthy_true _) Hne), dict_get_set_same. cbv zeta.
  match goal with
  | |- (?c, _) = _ => assert (E : c = ctx)
  end.
  { destruct ctx as [pn cn ind rt obj qs]. unfold build_ctx, questions_value.
    simpl in *. now rewrite Hq. }
  rewrite E. now rewrite dict_set_twice.
Qed.

(** X11: a project saved by one run and selected again in the next, with
    the form left as it is prefilled, gives the same context and leaves the
    store unchanged, provided its number is neither empty nor the text of the
    new-project option. *)
Theorem saved_project_reloads_unchanged :
  forall projects sel typed edits typed',
    let ctx := fst (context_step projects sel typed edits) in
    let projects' := snd (context_step projects sel typed edits) in
    project_no ctx <> [] ->
    project_no ctx <> NEW ->
    context_step projects' (project_no ctx) typed' untouched = (ctx, projects').
Proof.
  intros projects sel typed edits typed' ctx projects' Hne Hnew.
  assert (Hp : projects' = dict_set (project_no ctx) (saved_of ctx) projects).
  { assert (Ht : Str.truthy (choose_project_no sel typed) = true)
      by (apply truthy_true; exact Hne).
    unfold projects', ctx, context_step. simpl. now rewrite Ht. }
  rewrite Hp. apply reload_saved; try assumption.
  unfold ctx, context_step. simpl. apply questions_round_trip.
Qed.

Lemma saved_project_reloads_witness :
  context_step (snd (context_step [] NEW (py "P-17")
                       {| e_client_name := Some (py "Acme"); e_industry := None;
                          e_resp_type := None; e_objectives := None;
                          e_questions_raw := Some (py " Why? " ++ [nl; nl] ++ py "How?") |}))
               (py "P-17") [] untouched
  = context_step [] NEW (py "P-17")
      {| e_client_name := Some (py "Acme"); e_industry := None;
         e_resp_type := None; e_objectives := None;
         e_questions_raw := Some (py " Why? " ++ [nl; nl] ++ py "How?") |}.
Proof.
  refine (eq_trans
            (saved_project_reloads_unchanged [] NEW (py "P-17")
               {| e_client_name := Some (py "Acme"); e_industry := None;
                  e_resp_type := None; e_objectives := None;
                  e_questions_raw := Some (py " Why? " ++ [nl; nl] ++ py "How?") |}
               [] _ _) _).
  - vm_compute. discriminate.
  - vm_compute. discriminate.
  - reflexivity.
Defined.

(** X12: a run never duplicates a project name and never reorders the
    names the selector offers: the names after the run are the names before
    it, followed by the project number of the run when that is new and not
    empty. *)
Theorem selector_names_are_stable :
  forall projects sel typed edits,
    let pn := choose_project_no sel typed in
    let projects' := snd (context_step projects sel typed edits) in
    NoDup (dict_keys projects) ->
    NoDup (dict_keys projects')
    /\ load_options projects'
       = load_options projects
         ++ (if Str.truthy pn && negb (existsb (Str.eqb pn) (dict_keys projects))
             then [pn] else []).
Proof.
  intros projects sel typed edits pn projects' Hnd.
  unfold projects', context_step, load_options. simpl. fold pn.
  destruct (Str.truthy pn); simpl.
  - rewrite dict_keys_set.
    destruct (dict_get pn projects) as [v|] eqn:E.
    + assert (Hin : In pn (dict_keys projects)).
      { destruct (in_dec (list_eq_dec N.eq_dec) pn (dict_keys projects)) as [H|H];
          [exact H|]. apply dict_get_None in H. congruence. }
      assert (Hex : existsb (Str.eqb pn) (dict_keys projects) = true).
      { apply existsb_exists. exists pn. split; [exact Hin|apply eqb_refl]. }
      rewrite Hex. simpl. rewrite app_nil_r. auto.
    + apply dict_get_None in E.
      assert (Hex : existsb (Str.eqb pn) (dict_keys projects) = false).
      { destruct (existsb (Str.eqb pn) (dict_keys projects)) eqn:Ex; [|reflexivity].
        apply existsb_exists in Ex as [x [Hx Hxe]]. apply eqb_eq in Hxe.
        subst x. contradiction. }
      rewrite Hex. simpl. split; [now apply NoDup_snoc|reflexivity].
  - rewrite app_nil_r. auto.
Qed.

Lemma selector_names_witness :
  NoDup (dict_keys (snd (context_step [(py "P-01", no_defaults)] NEW (py "P-17")
                                      untouched)))
  /\ load_options (snd (context_step [(py "P-01", no_defaults)] NEW (py "P-17")
                                     untouched))
     = [NEW; py "P-01"; py "P-17"].
Proof.
  refine (selector_names_are_stable [(py "P-01", no_defaults)] NEW (py "P-17")
            untouched _).
  simpl. constructor; [simpl; tauto|constructor].
Defined.

(** ** The template of the prompt and the extractor *)

Lemma xml_template_block : xml_template = [nl] ++ template_block ++ [nl].
Proof. vm_compute. reflexivity. Qed.

Lemma join_In (c : char) (sep : str) (l : list str) :
  In c (Str.join sep l) -> In c sep \/ exists x, In x l /\ In c x.
Proof.
  induction l as [|x l IH]; simpl; [tauto|].
  destruct l as [|y l].
  - intros H. right. exists x. auto.
  - intros H. apply in_app_or in H as [H|H]; [right; exists x; auto|].
    apply in_app_or in H as [H|H]; [now left|].
    destruct (IH H) as [Hs|[z [Hz Hc]]]; [now left|].
    right. exists z. split; [now right|exact Hc].
Qed.

Lemma literal_plain (c : char) (lit s : str) :
  forallb (fun x => negb (N.eqb x c)) lit = true ->
  ~ In c s -> ~ In c (lit ++ s).
Proof.
  intros Hl Hs Hin. apply in_app_or in Hin as [Hin|Hin]; [|tauto].
  rewrite forallb_forall in Hl. specialize (Hl c Hin).
  now rewrite N.eqb_refl in Hl.
Qed.

Lemma field_plain (c : char) (f s : str) :
  ~ In c f -> ~ In c s -> ~ In c (f ++ s).
Proof. intros Hf Hs Hin. apply in_app_or in Hin. tauto. Qed.

Lemma questions_list_plain (ctx : ProjectContext) :
  Forall (fun q => ~ In lt_sign q) (questions ctx) ->
  ~ In lt_sign (questions_list ctx).
Proof.
  intros H Hin. unfold questions_list in Hin.
  apply join_In in Hin as [Hin|[b [Hb Hin]]].
  - vm_compute in Hin. intuition discriminate.
  - apply in_map_iff in Hb as [q [<- Hq]].
    rewrite Forall_forall in H. specialize (H q Hq).
    unfold bullet in Hin. apply in_app_or in Hin as [Hin|Hin]; [|tauto].
    vm_compute in Hin. intuition discriminate.
Qed.

Lemma prompt_head_plain (ctx : ProjectContext) :
  plain_ctx ctx -> ~ In lt_sign (header ctx ++ instructions ++ [nl]).
Proof.
  intros (Hp & Hc & Hi & Ho & Hr & Hq). unfold header.
  repeat rewrite <- app_assoc.
  repeat (first [ apply literal_plain; [reflexivity|]
                | apply field_plain; [assumption|]
                | apply field_plain; [now apply questions_list_plain|] ]).
  vm_compute. intuition discriminate.
Qed.

(** X13: the template the prompt shows is one the extractor accepts: for a
    context whose texts hold no less-than sign, and any responses, the
    extractor applied to the prompt itself locates the template and returns
    its placeholders, one executive item, the narrative, one idea and one
    quote with its id. *)
Theorem prompt_template_is_extractable :
  forall ctx raw,
    plain_ctx ctx ->
    Re.search (prompt ctx raw) = Some template_block
    /\ extract (prompt ctx raw) = Ok placeholder_doc.
Proof.
  intros ctx raw Hctx.
  assert (Hs : Re.search (prompt ctx raw) = Some template_block).
  { unfold prompt. rewrite xml_template_block.
    replace (header ctx ++ instructions ++ ([nl] ++ template_block ++ [nl])
             ++ [nl] ++ py "Raw Responses:" ++ [nl] ++ raw ++ [nl])
      with ((header ctx ++ instructions ++ [nl])
            ++ template_block
            ++ ([nl] ++ [nl] ++ py "Raw Responses:" ++ [nl] ++ raw ++ [nl]))
      by (repeat rewrite <- app_assoc; reflexivity).
    rewrite search_skips_prose by now apply prompt_head_plain.
    assert (Hm : Re.match_here template_block = Some template_block)
      by (vm_compute; reflexivity).
    rewrite search_unfold. erewrite match_here_app by exact Hm. reflexivity. }
  split; [exact Hs|]. unfold extract. rewrite Hs. vm_compute. reflexivity.
Qed.

Lemma sample_ctx_plain : plain_ctx sample_ctx.
Proof.
  unfold plain_ctx. repeat split;
    try (vm_compute; intuition discriminate).
  vm_compute. repeat constructor; intuition discriminate.
Qed.

Lemma prompt_template_witness :
  Re.search (prompt sample_ctx sample_raw) = Some template_block
  /\ extract (prompt sample_ctx sample_raw) = Ok placeholder_doc.
Proof.
  apply (prompt_template_is_extractable sample_ctx sample_raw).
  exact sample_ctx_plain.
Defined.

(** ** Replies in the shape of the template *)

Lemma scenario_A_is_a_reply : reply_src scenario_A_reply = scenario_A.
Proof. vm_compute. reflexivity. Qed.

Lemma template_is_a_reply : reply_src template_reply = template_block.
Proof. vm_compute. reflexivity. Qed.

Lemma sample_replies_ok :
  reply_ok scenario_A_reply = true /\ reply_ok template_reply = true.
Proof. split; vm_compute; reflexivity. Qed.

(** ** Replies in the shape of the template: the lexer *)

Lemma lex_mono (f : nat) :
  forall s toks, ET.lex f s = Some toks ->
  forall f', (f <= f')%nat -> ET.lex f' s = Some toks.
Proof.
  induction f as [|f IH]; [discriminate|].
  intros s toks H [|f'] Hle; [lia|].
  assert (Hle' : (f <= f')%nat) by lia.
  assert (IHm : forall (g : list ET.token -> list ET.token) r t,
             option_map g (ET.lex f r) = Some t ->
             option_map g (ET.lex f' r) = Some t).
  { intros g r t Hr. destruct (ET.lex f r) as [x|] eqn:E; [|discriminate].
    now rewrite (IH r x E f' Hle'). }
  revert H. cbn [ET.lex].
  repeat match goal with
         | |- context [match ?x with _ => _ end] =>
             lazymatch x with
             | ET.lex _ _ => fail
             | _ => destruct x
             end
         end;
    try discriminate; try (intros H; exact H); try apply IHm;
    try (intros H; exact (IH _ _ H f' Hle')).
Qed.

Lemma take_until_Some (stop s a r : str) :
  ET.take_until stop s = Some (a, r) -> s = a ++ stop ++ r.
Proof.
  revert a r. induction s as [|c s IH]; intros a r; simpl.
  - destruct (Str.strip_prefix stop []) as [x|] eqn:E; [|discriminate].
    intros H. injection H as <- <-. now apply strip_prefix_Some in E.
  - destruct (Str.strip_prefix stop (c :: s)) as [x|] eqn:E.
    + intros H. injection H as <- <-. now apply strip_prefix_Some in E.
    + destruct (ET.take_until stop s) as [[a' r']|]; [|discriminate].
      intros H. injection H as <- <-. simpl. f_equal. now apply IH.
Qed.

(** A text without [>] holds no end of a CDATA section. *)
Lemma no_cdata_end (d : str) :
  ~ In 62 d -> ET.take_until (py "]]>") d = None.
Proof.
  intros H. destruct (ET.take_until (py "]]>") d) as [[a r]|] eqn:E; [|reflexivity].
  apply take_until_Some in E. exfalso. apply H. rewrite E.
  apply in_or_app. right. simpl. auto.
Qed.

Lemma span_to_lt (d rest : str) :
  ~ In 60 d ->
  ET.span (fun c => negb (c =? 60)) (d ++ 60 :: rest) = (d, 60 :: rest).
Proof.
  induction d as [|c d IH]; simpl; intros H; [reflexivity|].
  destruct (N.eqb_spec c 60) as [->|_]; [tauto|]. simpl.
  rewrite IH by tauto. reflexivity.
Qed.

(** A run of character data before a tag is one token. *)
Lemma lex_data (d t : str) (f : nat) (rest : str) (toks : list ET.token) :
  d <> [] -> ~ In 60 d -> ~ In 62 d ->
  ET.decode None d = Some t ->
  ET.lex f (60 :: rest) = Some toks ->
  ET.lex (S f) (d ++ 60 :: rest)
  = Some (ET.data_token (negb (existsb (N.eqb 38) d)) t ++ toks).
Proof.
  intros Hne Hlt Hgt Hd Hl.
  destruct d as [|c d']; [congruence|].
  assert (Hc : negb (c =? 60) = true).
  { destruct (N.eqb_spec c 60) as [->|_]; [|reflexivity]. simpl in Hlt. tauto. }
  change ((c :: d') ++ 60 :: rest) with (c :: (d' ++ 60 :: rest)).
  cbn [ET.lex]. rewrite Hc.
  change (c :: d' ++ 60 :: rest) with ((c :: d') ++ 60 :: rest).
  rewrite span_to_lt by assumption.
  rewrite no_cdata_end by assumption. rewrite Hd, Hl. reflexivity.
Qed.

(** The same when the run may be empty. *)
Lemma lex_data_opt (d t : str) (f : nat) (rest : str) (toks : list ET.token) :
  ~ In 60 d -> ~ In 62 d ->
  ET.decode None d = Some t ->
  ET.lex f (60 :: rest) = Some toks ->
  ET.lex (S f) (d ++ 60 :: rest)
  = Some (ET.data_token (negb (existsb (N.eqb 38) d)) t ++ toks).
Proof.
  intros Hlt Hgt Hd Hl. destruct d as [|c d'] eqn:E.
  - cbn [ET.decode] in Hd. injection Hd as <-. cbn [app ET.data_token].
    apply (lex_mono f _ _ Hl). lia.
  - rewrite <- E in *. apply lex_data; try assumption. rewrite E. discriminate.
Qed.

Lemma lex_open (n : tagname) (f : nat) (rest : str) (toks : list ET.token) :
  ET.lex f rest = Some toks ->
  ET.lex (S f) (open_src n ++ rest) = Some (ET.TStart (tag_str n) [] :: toks).
Proof. intros H. destruct n; cbn; rewrite H; reflexivity. Qed.

Lemma lex_close (n : tagname) (f : nat) (rest : str) (toks : list ET.token) :
  ET.lex f rest = Some toks ->
  ET.lex (S f) (close_src n ++ rest) = Some (ET.TEnd (tag_str n) :: toks).
Proof. intros H. destruct n; cbn; rewrite H; reflexivity. Qed.

Lemma eqb_succ_false (n : nat) : Nat.eqb n (S n) = false.
Proof. induction n; simpl; auto. Qed.

Lemma take_until_char (q : char) (d rest : str) :
  ~ In q d -> ET.take_until [q] (d ++ q :: rest) = Some (d, rest).
Proof.
  induction d as [|c d IH]; intros H; cbn [app ET.take_until Str.strip_prefix].
  - now rewrite N.eqb_refl.
  - destruct (N.eqb_spec q c) as [->|_]; [simpl in H; tauto|].
    rewrite IH by (simpl in H; tauto). reflexivity.
Qed.

Lemma decode_escape_char (c : char) (s : str) :
  ET.decode None (escape_char c ++ s)
  = option_map (cons c) (ET.decode None s).
Proof.
  unfold escape_char.
  destruct (N.eqb_spec c 38) as [->|H1];
    [cbn; destruct (ET.decode None s); reflexivity|].
  destruct (N.eqb_spec c 60) as [->|H2];
    [cbn; destruct (ET.decode None s); reflexivity|].
  destruct (N.eqb_spec c 62) as [->|H3];
    [cbn; destruct (ET.decode None s); reflexivity|].
  destruct (N.eqb_spec c 13) as [->|H4];
    [cbn; destruct (ET.decode None s); reflexivity|].
  cbn [app ET.decode].
  rewrite (proj2 (N.eqb_neq c 38) H1), (proj2 (N.eqb_neq c 60) H2).
  destruct (ET.decode None s); reflexivity.
Qed.

Lemma decode_escape (t : str) : ET.decode None (escape t) = Some t.
Proof.
  induction t as [|c t IH]; [reflexivity|].
  unfold escape. cbn [flat_map]. rewrite decode_escape_char.
  fold (escape t). now rewrite IH.
Qed.

Lemma decode_escape_attr_char (c : char) (s : str) :
  ET.decode None (escape_attr_char c ++ s)
  = option_map (cons c) (ET.decode None s).
Proof.
  unfold escape_attr_char.
  destruct (N.eqb_spec c 38) as [->|H1];
    [cbn; destruct (ET.decode None s); reflexivity|].
  destruct (N.eqb_spec c 60) as [->|H2];
    [cbn; destruct (ET.decode None s); reflexivity|].
  destruct (N.eqb_spec c 34) as [->|H3];
    [cbn; destruct (ET.decode None s); reflexivity|].
  destruct (N.eqb_spec c 9) as [->|H4];
    [cbn; destruct (ET.decode None s); reflexivity|].
  destruct (N.eqb_spec c 10) as [->|H5];
    [cbn; destruct (ET.decode None s); reflexivity|].
  destruct (N.eqb_spec c 13) as [->|H6];
    [cbn; destruct (ET.decode None s); reflexivity|].
  cbn [app ET.decode].
  rewrite (proj2 (N.eqb_neq c 38) H1), (proj2 (N.eqb_neq c 60) H2).
  destruct (ET.decode None s); reflexivity.
Qed.

Lemma decode_escape_attr (t : str) : ET.decode None (escape_attr t) = Some t.
Proof.
  induction t as [|c t IH]; [reflexivity|].
  unfold escape_attr. cbn [flat_map]. rewrite decode_escape_attr_char.
  fold (escape_attr t). now rewrite IH.
Qed.

Lemma escape_char_cases (c : char) :
  escape_char c = [c] /\ c <> 38 /\ c <> 60 /\ c <> 62 /\ c <> 13
  \/ In (escape_char c) [py "&amp;"; py "&lt;"; py "&gt;"; py "&#13;"].
Proof.
  unfold escape_char.
  destruct (N.eqb_spec c 38); [right; simpl; auto|].
  destruct (N.eqb_spec c 60); [right; simpl; auto|].
  destruct (N.eqb_spec c 62); [right; simpl; auto|].
  destruct (N.eqb_spec c 13); [right; simpl; auto 6|].
  left. auto.
Qed.

Lemma escape_attr_char_cases (c : char) :
  escape_attr_char c = [c]
  /\ c <> 38 /\ c <> 60 /\ c <> 34 /\ c <> 9 /\ c <> 10 /\ c <> 13
  \/ In (escape_attr_char c)
        [py "&amp;"; py "&lt;"; py "&quot;"; py "&#9;"; py "&#10;"; py "&#13;"].
Proof.
  unfold escape_attr_char.
  destruct (N.eqb_spec c 38); [right; simpl; auto|].
  destruct (N.eqb_spec c 60); [right; simpl; auto|].
  destruct (N.eqb_spec c 34); [right; simpl; auto 6|].
  destruct (N.eqb_spec c 9); [right; simpl; auto 7|].
  destruct (N.eqb_spec c 10); [right; simpl; auto 8|].
  destruct (N.eqb_spec c 13); [right; simpl; auto 9|].
  left. auto 8.
Qed.

Lemma forallb_flat_map (P : char -> bool) (f : char -> str) (t : str) :
  (forall c, In c t -> forallb P (f c) = true) ->
  forallb P (flat_map f t) = true.
Proof.
  induction t as [|c t IH]; intros H; simpl; [reflexivity|].
  rewrite forallb_app, (H c) by now left.
  apply IH. intros x Hx. apply H. now right.
Qed.

Lemma forallb_weaken (P Q : char -> bool) (s : str) :
  (forall c, P c = true -> Q c = true) ->
  forallb P s = true -> forallb Q s = true.
Proof.
  intros H. rewrite !forallb_forall. intros Hs x Hx. auto.
Qed.

Lemma forallb_not_In (P : char -> bool) (s : str) (x : char) :
  forallb P s = true -> P x = false -> ~ In x s.
Proof.
  rewrite forallb_forall. intros H Hx Hin. apply H in Hin. congruence.
Qed.

Lemma escape_chars (t : str) :
  forallb ET.is_xml_char t = true -> forallb text_charb (escape t) = true.
Proof.
  intros H. apply forallb_flat_map. intros c Hc.
  rewrite forallb_forall in H. specialize (H c Hc).
  destruct (escape_char_cases c) as [[-> (H1 & H2 & H3 & H4)]|Hin].
  - simpl. unfold text_charb. rewrite H.
    rewrite (proj2 (N.eqb_neq c 60) H2), (proj2 (N.eqb_neq c 62) H3),
      (proj2 (N.eqb_neq c 13) H4). reflexivity.
  - simpl in Hin. repeat (destruct Hin as [<-|Hin]; [reflexivity|]).
    destruct Hin.
Qed.

Lemma escape_attr_chars (t : str) :
  forallb ET.is_xml_char t = true -> forallb attr_charb (escape_attr t) = true.
Proof.
  intros H. apply forallb_flat_map. intros c Hc.
  rewrite forallb_forall in H. specialize (H c Hc).
  destruct (escape_attr_char_cases c)
    as [[-> (H1 & H2 & H3 & H4 & H5 & H6)]|Hin].
  - simpl. unfold attr_charb. rewrite H.
    rewrite (proj2 (N.eqb_neq c 60) H2), (proj2 (N.eqb_neq c 34) H3),
      (proj2 (N.eqb_neq c 9) H4), (proj2 (N.eqb_neq c 10) H5),
      (proj2 (N.eqb_neq c 13) H6). reflexivity.
  - simpl in Hin. repeat (destruct Hin as [<-|Hin]; [reflexivity|]).
    destruct Hin.
Qed.

Lemma text_char_plain (c : char) : text_charb c = true -> plainb c = true.
Proof.
  unfold text_charb, plainb. intros H.
  repeat (apply andb_prop in H; destruct H as [H ?]).
  apply andb_true_intro. auto.
Qed.

Lemma attr_char_plain (c : char) : attr_charb c = true -> plainb c = true.
Proof.
  unfold attr_charb, plainb. intros H.
  repeat (apply andb_prop in H; destruct H as [H ?]).
  apply andb_true_intro. auto.
Qed.

Lemma layout_plain (c : char) : layoutb c = true -> plainb c = true.
Proof.
  unfold layoutb, plainb. intros H.
  apply orb_prop in H as [H|H]; [apply orb_prop in H as [H|H]|];
    apply N.eqb_eq in H; subst; reflexivity.
Qed.

Lemma layout_text (c : char) : layoutb c = true -> text_charb c = true.
Proof.
  unfold layoutb. intros H.
  apply orb_prop in H as [H|H]; [apply orb_prop in H as [H|H]|];
    apply N.eqb_eq in H; subst; reflexivity.
Qed.

Lemma layout_no_amp (w : str) :
  is_layout w = true -> existsb (N.eqb 38) w = false.
Proof.
  unfold is_layout. induction w as [|c w IH]; simpl; [reflexivity|].
  intros H. apply andb_prop in H as [Hc Hw]. rewrite (IH Hw).
  apply orb_prop in Hc as [Hc|Hc]; [apply orb_prop in Hc as [Hc|Hc]|];
    apply N.eqb_eq in Hc; subst; reflexivity.
Qed.

Lemma decode_layout (w : str) : is_layout w = true -> ET.decode None w = Some w.
Proof.
  unfold is_layout. induction w as [|c w IH]; [reflexivity|].
  cbn [forallb ET.decode]. intros H. apply andb_prop in H as [Hc Hw].
  rewrite (IH Hw).
  apply orb_prop in Hc as [Hc|Hc]; [apply orb_prop in Hc as [Hc|Hc]|];
    apply N.eqb_eq in Hc; subst; reflexivity.
Qed.

Lemma attr_value_kept (v : str) :
  forallb attr_charb v = true ->
  map (fun c => if ET.is_xml_space c then 32 else c) v = v.
Proof.
  induction v as [|c v IH]; simpl; [reflexivity|].
  intros H. apply andb_prop in H as [Hc Hv]. rewrite (IH Hv). f_equal.
  unfold attr_charb in Hc. unfold ET.is_xml_space.
  repeat (apply andb_prop in Hc; destruct Hc as [Hc ?]).
  destruct (N.eqb_spec c 32) as [->|_]; [reflexivity|].
  destruct (c =? 9); [discriminate|]. destruct (c =? 10); [discriminate|].
  destruct (c =? 13); [discriminate|]. reflexivity.
Qed.

(** The attribute [id] of a start tag. *)
Lemma lex_attrs_id (fuel : nat) (r rest : str) :
  forallb ET.is_xml_char r = true ->
  ET.lex_attrs (S (S fuel))
               (py " id=" ++ dq ++ escape_attr r ++ dq ++ py ">" ++ rest) []
  = Some ([(py "id", r)], false, rest).
Proof.
  intros Hr. assert (Ha := escape_attr_chars r Hr).
  cbn -[ET.take_until ET.decode escape_attr].
  rewrite eqb_succ_false.
  rewrite take_until_char by (apply (forallb_not_In _ _ _ Ha); reflexivity).
  rewrite attr_value_kept by assumption.
  rewrite decode_escape_attr. reflexivity.
Qed.

Lemma take_until_app (stop s a r x : str) :
  ET.take_until stop s = Some (a, r) ->
  ET.take_until stop (s ++ x) = Some (a, r ++ x).
Proof.
  revert a r. induction s as [|c s IH]; intros a r; cbn [ET.take_until app].
  - destruct (Str.strip_prefix stop []) as [y|] eqn:E; [|discriminate].
    intros H. injection H as <- <-.
    apply strip_prefix_Some in E. destruct stop; [|discriminate].
    simpl in E. subst y. simpl. now destruct x.
  - destruct (Str.strip_prefix stop (c :: s)) as [y|] eqn:E.
    + intros H. injection H as <- <-.
      change (c :: s ++ x) with ((c :: s) ++ x).
      now rewrite (strip_prefix_app _ _ _ x E).
    + destruct (ET.take_until stop s) as [[a' r']|] eqn:Et; [|discriminate].
      intros H. injection H as <- <-.
      change (c :: s ++ x) with ((c :: s) ++ x).
      rewrite (strip_prefix_None_app _ _ x E).
      * now rewrite (IH a' r' eq_refl).
      * apply take_until_Some in Et. rewrite Et. simpl.
        rewrite !length_app. lia.
Qed.

Lemma closes_at_end_spec (stop t : str) :
  closes_at_end stop t = true ->
  ET.take_until stop (t ++ stop) = Some (t, []).
Proof.
  unfold closes_at_end.
  destruct (ET.take_until stop (t ++ stop)) as [[a [|c r]]|]; try discriminate.
  intros H. apply eqb_eq in H. now subst.
Qed.

Lemma lex_cdata (t : str) (f : nat) (rest : str) (toks : list ET.token) :
  closes_at_end (py "]]>") t = true ->
  ET.lex f rest = Some toks ->
  ET.lex (S f) (py "<![CDATA[" ++ t ++ py "]]>" ++ rest)
  = Some (ET.data_token false t ++ toks).
Proof.
  intros Hc Hl. apply closes_at_end_spec in Hc.
  apply (take_until_app _ _ _ _ rest) in Hc. rewrite <- app_assoc in Hc.
  cbn -[ET.take_until]. cbn -[ET.take_until] in Hc. rewrite Hc, Hl. reflexivity.
Qed.

Lemma lex_start (n : tagname) (rid : option str) (f : nat) (rest : str)
                (toks : list ET.token) :
  match rid with Some r => forallb ET.is_xml_char r = true | None => True end ->
  ET.lex f rest = Some toks ->
  ET.lex (S f) (start_src n rid ++ rest)
  = Some (ET.TStart (tag_str n) (id_attrs rid) :: toks).
Proof.
  intros Hr Hl. destruct rid as [r|]; [|now apply lex_open].
  unfold start_src. rewrite <- !app_assoc.
  destruct n; cbn -[ET.lex_attrs escape_attr];
    match goal with
    | |- context [ET.lex_attrs (S (S ?k)) ?s []] =>
        change (ET.lex_attrs (S (S k)) s [])
          with (ET.lex_attrs (S (S k))
                  (py " id=" ++ dq ++ escape_attr r ++ dq ++ py ">" ++ rest) [])
    end;
    rewrite (lex_attrs_id _ r rest Hr), Hl; reflexivity.
Qed.

Lemma written_ok_chars (c : written) :
  written_ok c = true -> forallb ET.is_xml_char (written_text c) = true.
Proof.
  destruct c as [t|t]; simpl; [auto|]. intros H.
  repeat (apply andb_prop in H; destruct H as [H ?]). exact H.
Qed.

(** The text of a leaf, before its end tag. *)
Lemma lex_written (c : written) (n : tagname) (f : nat) (rest : str)
                  (toks : list ET.token) :
  written_ok c = true ->
  ET.lex f (close_src n ++ rest) = Some toks ->
  ET.lex (S f) (written_src c ++ close_src n ++ rest)
  = Some (written_tokens c ++ toks).
Proof.
  intros Hc Hl. destruct c as [t|t]; unfold written_src, written_tokens.
  - assert (Ht := escape_chars t Hc).
    change (close_src n ++ rest)
      with (60 :: (47 :: (tag_str n ++ py ">") ++ rest)) in *.
    apply lex_data_opt.
    + apply (forallb_not_In _ _ _ Ht). reflexivity.
    + apply (forallb_not_In _ _ _ Ht). reflexivity.
    + apply decode_escape.
    + exact Hl.
  - simpl in Hc. repeat (apply andb_prop in Hc; destruct Hc as [Hc ?]).
    rewrite <- !app_assoc. now apply lex_cdata.
Qed.

(** White space before a tag. *)
Lemma lex_layout (w : str) (f : nat) (rest : str) (toks : list ET.token) :
  is_layout w = true ->
  ET.lex f (60 :: rest) = Some toks ->
  ET.lex (S f) (w ++ 60 :: rest) = Some (ET.data_token true w ++ toks).
Proof.
  intros Hw Hl.
  assert (Ht : forallb text_charb w = true)
    by (apply (forallb_weaken layoutb); [apply layout_text|exact Hw]).
  assert (E : negb (existsb (N.eqb 38) w) = true)
    by now rewrite (layout_no_amp w Hw).
  rewrite <- E. apply lex_data_opt.
  - apply (forallb_not_In _ _ _ Ht). reflexivity.
  - apply (forallb_not_In _ _ _ Ht). reflexivity.
  - now apply decode_layout.
  - exact Hl.
Qed.

Lemma start_src_lt (n : tagname) (rid : option str) (x : str) :
  exists y, start_src n rid ++ x = 60 :: y.
Proof. destruct rid; destruct n; eexists; reflexivity. Qed.

Lemma leaf_src_lt (n : tagname) (l : leaf) (x : str) :
  exists y, leaf_src n l ++ x = 60 :: y.
Proof.
  unfold leaf_src. rewrite <- app_assoc. apply start_src_lt.
Qed.

Lemma leaves_then_lt (n : tagname) (ls : list leaf) (x : str) :
  (exists y, x = 60 :: y) -> exists y, flat_map (leaf_src n) ls ++ x = 60 :: y.
Proof.
  destruct ls as [|l ls]; [auto|]. intros _. cbn [flat_map].
  rewrite <- app_assoc. apply leaf_src_lt.
Qed.

Lemma leaf_ok_parts (l : leaf) :
  leaf_ok l = true ->
  match l_id l with
  | Some r => forallb ET.is_xml_char r = true
  | None => True
  end
  /\ written_ok (l_text l) = true /\ is_layout (l_after l) = true.
Proof.
  unfold leaf_ok. intros H.
  apply andb_prop in H as [H H3]. apply andb_prop in H as [H1 H2].
  repeat split; try assumption. now destruct (l_id l).
Qed.

(** A leaf before a tag. *)
Lemma lex_leaf (n : tagname) (l : leaf) (f : nat) (rest : str)
               (toks : list ET.token) :
  leaf_ok l = true ->
  (exists y, rest = 60 :: y) ->
  ET.lex f rest = Some toks ->
  ET.lex (4 + f) (leaf_src n l ++ rest) = Some (leaf_tokens n l ++ toks).
Proof.
  intros Hl [y ->] Hr. apply leaf_ok_parts in Hl as (Hid & Hw & Ha).
  unfold leaf_src, leaf_tokens. rewrite <- !app_assoc.
  cbn [app]. rewrite <- !app_assoc. cbn [app].
  apply lex_start; [exact Hid|].
  apply lex_written; [exact Hw|].
  apply lex_close. now apply lex_layout.
Qed.

Lemma lex_leaves (n : tagname) (ls : list leaf) (f : nat) (rest : str)
                 (toks : list ET.token) :
  forallb leaf_ok ls = true ->
  (exists y, rest = 60 :: y) ->
  ET.lex f rest = Some toks ->
  ET.lex (4 * List.length ls + f) (flat_map (leaf_src n) ls ++ rest)
  = Some (flat_map (leaf_tokens n) ls ++ toks).
Proof.
  intros Hok Hlt Hr. induction ls as [|l ls IH]; [exact Hr|].
  cbn [forallb] in Hok. apply andb_prop in Hok as [Hl Hls].
  cbn [flat_map]. rewrite <- !app_assoc.
  replace (4 * List.length (l :: ls) + f)%nat
    with (4 + (4 * List.length ls + f))%nat by (cbn [List.length]; lia).
  apply lex_leaf; [exact Hl|now apply leaves_then_lt|now apply IH].
Qed.

Lemma lex_open_ws (n : tagname) (w : str) (f : nat) (rest : str)
                  (toks : list ET.token) :
  is_layout w = true ->
  (exists y, rest = 60 :: y) ->
  ET.lex f rest = Some toks ->
  ET.lex (2 + f) (open_src n ++ w ++ rest) = Some (open_tokens n w ++ toks).
Proof.
  intros Hw [y ->] Hr. unfold open_tokens. cbn [app].
  apply lex_open. now apply lex_layout.
Qed.

Lemma lex_close_ws (n : tagname) (w : str) (f : nat) (rest : str)
                   (toks : list ET.token) :
  is_layout w = true ->
  (exists y, rest = 60 :: y) ->
  ET.lex f rest = Some toks ->
  ET.lex (2 + f) (close_src n ++ w ++ rest) = Some (close_tokens n w ++ toks).
Proof.
  intros Hw [y ->] Hr. unfold close_tokens. cbn [app].
  apply lex_close. now apply lex_layout.
Qed.

Lemma reply_ok_parts (r : reply) :
  reply_ok r = true ->
  (is_layout (after_root (r_layout r)) = true
   /\ is_layout (after_executive (r_layout r)) = true
   /\ is_layout (after_executive_end (r_layout r)) = true
   /\ is_layout (after_ideas (r_layout r)) = true
   /\ is_layout (after_ideas_end (r_layout r)) = true
   /\ is_layout (after_quotes (r_layout r)) = true
   /\ is_layout (after_quotes_end (r_layout r)) = true)
  /\ forallb leaf_ok (r_items r) = true
  /\ leaf_ok (r_narrative r) = true
  /\ forallb leaf_ok (r_ideas r) = true
  /\ forallb leaf_ok (r_quotes r) = true.
Proof.
  unfold reply_ok, layout_ok. intros H.
  repeat (apply andb_prop in H; destruct H as [H ?]).
  repeat split; assumption.
Qed.

Lemma leaf_src_length (n : tagname) (l : leaf) :
  (4 <= List.length (leaf_src n l))%nat.
Proof.
  unfold leaf_src, start_src, open_src.
  destruct (l_id l); destruct n; rewrite !length_app; simpl; lia.
Qed.

Lemma leaves_length (n : tagname) (ls : list leaf) :
  (4 * List.length ls <= List.length (flat_map (leaf_src n) ls))%nat.
Proof.
  induction ls as [|l ls IH]; simpl; [lia|].
  rewrite length_app. assert (H := leaf_src_length n l). lia.
Qed.

Ltac next_is_tag :=
  first [ eexists; reflexivity
        | apply leaf_src_lt
        | apply leaves_then_lt; next_is_tag ].

(** The tokens of a reply. *)
Lemma lex_reply (r : reply) :
  reply_ok r = true ->
  ET.lex (S (List.length (reply_src r))) (reply_src r) = Some (reply_tokens r).
Proof.
  intros Hok.
  apply reply_ok_parts in Hok
    as ((W0 & W1 & W2 & W3 & W4 & W5 & W6) & Hi & Hn & Hd & Hq).
  eapply lex_mono.
  - unfold reply_src, reply_tokens.
    eapply lex_open_ws; [exact W0|next_is_tag|].
    eapply lex_open_ws; [exact W1|next_is_tag|].
    eapply lex_leaves; [exact Hi|next_is_tag|].
    eapply lex_close_ws; [exact W2|next_is_tag|].
    eapply lex_leaf; [exact Hn|next_is_tag|].
    eapply lex_open_ws; [exact W3|next_is_tag|].
    eapply lex_leaves; [exact Hd|next_is_tag|].
    eapply lex_close_ws; [exact W4|next_is_tag|].
    eapply lex_open_ws; [exact W5|next_is_tag|].
    eapply lex_leaves; [exact Hq|next_is_tag|].
    eapply lex_close_ws; [exact W6|next_is_tag|].
    instantiate (1 := 2%nat). reflexivity.
  - unfold reply_src. rewrite !length_app.
    assert (H1 := leaves_length Item (r_items r)).
    assert (H2 := leaves_length Idea (r_ideas r)).
    assert (H3 := leaves_length Quote (r_quotes r)).
    assert (H4 := leaf_src_length Narrative (r_narrative r)).
    cbn [open_src close_src tag_str py map list_ascii_of_string List.length app].
    lia.
Qed.

(** ** Replies in the shape of the template: the tree *)

Lemma build_open (n : tagname) (w : str) (rest : list ET.token)
                 (stack : list ET.frame) :
  ET.current_scope stack = ET.initial_scope ->
  ET.build (open_tokens n w ++ rest) stack None
  = ET.build rest (section_frame n w [] :: stack) None.
Proof.
  intros Hs. unfold open_tokens. cbn [app ET.build].
  unfold ET.open_element. rewrite Hs.
  destruct n; destruct w; reflexivity.
Qed.

Lemma build_leaf (n : tagname) (l : leaf) (rest : list ET.token)
                 (m : tagname) (w : str) (kids : list ET.Element)
                 (stack : list ET.frame) :
  ET.build (leaf_tokens n l ++ rest) (section_frame m w kids :: stack) None
  = ET.build rest (section_frame m w (leaf_elem n l :: kids) :: stack) None.
Proof.
  destruct l as [rid c a]. unfold leaf_tokens, leaf_elem, leaf_text.
  cbn [l_id l_text l_after].
  destruct rid as [r|]; destruct c as [[|x t]|[|x t]]; destruct a as [|y a];
    destruct n; reflexivity.
Qed.

Lemma build_leaves (n : tagname) (ls : list leaf) (rest : list ET.token)
                   (m : tagname) (w : str) (kids : list ET.Element)
                   (stack : list ET.frame) :
  ET.build (flat_map (leaf_tokens n) ls ++ rest)
           (section_frame m w kids :: stack) None
  = ET.build rest
             (section_frame m w (rev (map (leaf_elem n) ls) ++ kids) :: stack)
             None.
Proof.
  revert kids. induction ls as [|l ls IH]; intros kids; [reflexivity|].
  cbn [flat_map map rev]. rewrite <- !app_assoc.
  rewrite build_leaf, IH. cbn [app]. reflexivity.
Qed.

Lemma build_close (n : tagname) (w0 w : str) (kids : list ET.Element)
                  (rest : list ET.token) (m : tagname) (w1 : str)
                  (kids1 : list ET.Element) (stack : list ET.frame) :
  ET.build (close_tokens n w ++ rest)
           (section_frame n w0 kids :: section_frame m w1 kids1 :: stack) None
  = ET.build rest
             (section_frame m w1 (section_elem n w0 (rev kids) w :: kids1)
                :: stack) None.
Proof.
  unfold close_tokens. destruct n; destruct w; reflexivity.
Qed.

(** The tree of the tokens of a reply. *)
Lemma build_reply (r : reply) :
  ET.build (reply_tokens r) [] None = ET.Parsed (reply_tree r).
Proof.
  unfold reply_tokens.
  rewrite build_open by reflexivity.
  rewrite build_open by reflexivity.
  rewrite build_leaves, build_close.
  change (leaf_tokens Narrative (r_narrative r) ++ ?x)
    with (leaf_tokens Narrative (r_narrative r) ++ x).
  rewrite build_leaf.
  rewrite build_open by reflexivity.
  rewrite build_leaves, build_close.
  rewrite build_open by reflexivity.
  rewrite build_leaves, build_close.
  rewrite !app_nil_r, !rev_involutive. reflexivity.
Qed.

(** ** Replies in the shape of the template: the sections *)

Lemma leaf_elem_text (n : tagname) (l : leaf) :
  ET.text_or_empty (leaf_elem n l) = leaf_text l.
Proof. unfold leaf_elem, ET.text_or_empty. simpl. now destruct (leaf_text l). Qed.

Lemma leaf_elem_id (n : tagname) (l : leaf) :
  ET.get (py "id") (leaf_elem n l) = l_id l.
Proof. unfold leaf_elem, ET.get. simpl. now destruct (l_id l). Qed.

Lemma leaves_found (n : tagname) (ls : list leaf) :
  filter (fun c => Str.eqb (ET.tag c) (tag_str n)) (map (leaf_elem n) ls)
  = map (leaf_elem n) ls.
Proof.
  induction ls as [|l ls IH]; [reflexivity|].
  cbn [map filter]. rewrite IH.
  replace (Str.eqb (ET.tag (leaf_elem n l)) (tag_str n)) with true;
    [reflexivity|]. symmetry. apply eqb_eq. reflexivity.
Qed.

Lemma leaves_texts (n : tagname) (ls : list leaf) :
  map ET.text_or_empty (map (leaf_elem n) ls) = map leaf_text ls.
Proof.
  rewrite map_map. apply map_ext. intros l. apply leaf_elem_text.
Qed.

(** The sections read off the tree of a reply. *)
Lemma extract_reply_tree (r : reply) :
  extract_sections (reply_tree r) = Ok (reply_doc r).
Proof.
  unfold reply_tree.
  erewrite extract_sections_present; [|reflexivity|reflexivity|reflexivity].
  unfold reply_doc. f_equal. f_equal.
  - change (map ET.text_or_empty
              (filter (fun c => Str.eqb (ET.tag c) (tag_str Item))
                      (map (leaf_elem Item) (r_items r)))
            = map leaf_text (r_items r)).
    now rewrite leaves_found, leaves_texts.
  - change (ET.text_or_empty (leaf_elem Narrative (r_narrative r))
            = leaf_text (r_narrative r)).
    apply leaf_elem_text.
  - change (map ET.text_or_empty
              (filter (fun c => Str.eqb (ET.tag c) (tag_str Idea))
                      (map (leaf_elem Idea) (r_ideas r)))
            = map leaf_text (r_ideas r)).
    now rewrite leaves_found, leaves_texts.
  - change (map (fun n => (ET.get (py "id") n, ET.text_or_empty n))
              (filter (fun c => Str.eqb (ET.tag c) (tag_str Quote))
                      (map (leaf_elem Quote) (r_quotes r)))
            = map (fun l => (l_id l, leaf_text l)) (r_quotes r)).
    rewrite leaves_found, map_map. apply map_ext. intros l.
    now rewrite leaf_elem_id, leaf_elem_text.
Qed.

(** ** Replies in the shape of the template: the characters *)

Lemma plain_chars (s : str) :
  forallb plainb s = true ->
  forallb ET.is_xml_char s = true /\ ET.normalize_eol s = s.
Proof.
  intros H. split.
  - apply (forallb_weaken plainb); [|exact H].
    unfold plainb. intros c Hc. now apply andb_prop in Hc as [Hc _].
  - induction s as [|c s IH]; [reflexivity|].
    cbn [forallb] in H. apply andb_prop in H as [Hc Hs].
    cbn [ET.normalize_eol]. unfold plainb in Hc.
    apply andb_prop in Hc as [_ Hc].
    destruct (c =? 13); [discriminate|]. now rewrite IH.
Qed.

Lemma tags_plain (n : tagname) :
  forallb plainb (open_src n) = true /\ forallb plainb (close_src n) = true.
Proof. destruct n; split; reflexivity. Qed.

Lemma layout_plain_all (w : str) :
  is_layout w = true -> forallb plainb w = true.
Proof. apply forallb_weaken. apply layout_plain. Qed.

Lemma start_plain (n : tagname) (rid : option str) :
  match rid with Some r => forallb ET.is_xml_char r = true | None => True end ->
  forallb plainb (start_src n rid) = true.
Proof.
  destruct rid as [r|]; [|intros _; apply tags_plain].
  intros Hr. unfold start_src. rewrite !forallb_app.
  rewrite (forallb_weaken attr_charb plainb _ attr_char_plain
             (escape_attr_chars r Hr)).
  destruct n; reflexivity.
Qed.

Lemma written_plain (c : written) :
  written_ok c = true -> forallb plainb (written_src c) = true.
Proof.
  destruct c as [t|t]; simpl.
  - intros H. apply (forallb_weaken text_charb); [apply text_char_plain|].
    now apply escape_chars.
  - intros H. repeat (apply andb_prop in H; destruct H as [H ?]).
    rewrite forallb_app. rewrite andb_true_r.
    rewrite forallb_forall in *. intros x Hx. unfold plainb.
    rewrite (H x Hx). simpl.
    destruct (N.eqb_spec x 13) as [->|_]; [|reflexivity].
    match goal with
    | Hn : negb (existsb (N.eqb 13) t) = true |- _ =>
        apply negb_true_iff in Hn;
        assert (Hex : existsb (N.eqb 13) t = true)
          by (apply existsb_exists; exists 13; split; [exact Hx|reflexivity]);
        congruence
    end.
Qed.

Lemma leaf_plain (n : tagname) (l : leaf) :
  leaf_ok l = true -> forallb plainb (leaf_src n l) = true.
Proof.
  intros H. apply leaf_ok_parts in H as (Hid & Hw & Ha).
  unfold leaf_src. rewrite !forallb_app.
  rewrite (start_plain n _ Hid), (written_plain _ Hw),
    (proj2 (tags_plain n)), (layout_plain_all _ Ha). reflexivity.
Qed.

Lemma leaves_plain (n : tagname) (ls : list leaf) :
  forallb leaf_ok ls = true ->
  forallb plainb (flat_map (leaf_src n) ls) = true.
Proof.
  induction ls as [|l ls IH]; [reflexivity|]. cbn [forallb flat_map].
  intros H. apply andb_prop in H as [Hl Hls].
  now rewrite forallb_app, (leaf_plain n l Hl), IH.
Qed.

Lemma reply_plain (r : reply) :
  reply_ok r = true -> forallb plainb (reply_src r) = true.
Proof.
  intros Hok.
  apply reply_ok_parts in Hok
    as ((W0 & W1 & W2 & W3 & W4 & W5 & W6) & Hi & Hn & Hd & Hq).
  unfold reply_src. rewrite !forallb_app.
  rewrite !(proj1 (tags_plain _)), !(proj2 (tags_plain _)).
  rewrite (layout_plain_all _ W0), (layout_plain_all _ W1),
    (layout_plain_all _ W2), (layout_plain_all _ W3),
    (layout_plain_all _ W4), (layout_plain_all _ W5),
    (layout_plain_all _ W6).
  rewrite (leaves_plain Item _ Hi), (leaves_plain Idea _ Hd),
    (leaves_plain Quote _ Hq), (leaf_plain Narrative _ Hn). reflexivity.
Qed.

(** The parser on the text of a reply. *)
Lemma fromstring_reply (r : reply) :
  reply_ok r = true -> ET.fromstring (reply_src r) = ET.Parsed (reply_tree r).
Proof.
  intros Hok. destruct (plain_chars _ (reply_plain r Hok)) as [Hc Hn].
  unfold ET.fromstring. rewrite Hc. cbv zeta. rewrite Hn.
  rewrite (lex_reply r Hok). apply build_reply.
Qed.

(** ** Replies in the shape of the template: locating the fragment

    The lazy star of line 142 runs over everything the reply writes before
    its closing root tag. *)

Lemma lazy_unfold (c : char) (s : str) :
  Re.lazy_any_then Re.close_tag (c :: s)
  = match Str.strip_prefix Re.close_tag (c :: s) with
    | Some _ => Some Re.close_tag
    | None =>
        match Re.lazy_any_then Re.close_tag s with
        | Some m => Some (c :: m)
        | None => None
        end
    end.
Proof. reflexivity. Qed.

Lemma lazy_step (c : char) (s m : str) :
  Str.strip_prefix Re.close_tag (c :: s) = None ->
  Re.lazy_any_then Re.close_tag s = Some m ->
  Re.lazy_any_then Re.close_tag (c :: s) = Some (c :: m).
Proof. intros H1 H2. now rewrite lazy_unfold, H1, H2. Qed.

Lemma close_tag_needs_lt (c : char) (s : str) :
  no_ltb c = true -> Str.strip_prefix Re.close_tag (c :: s) = None.
Proof.
  unfold no_ltb. intros H. apply negb_true_iff, N.eqb_neq in H.
  apply strip_prefix_None. intros r Hr. injection Hr as Hc _. congruence.
Qed.

Lemma lazy_plain (d rest m : str) :
  forallb no_ltb d = true ->
  Re.lazy_any_then Re.close_tag rest = Some m ->
  Re.lazy_any_then Re.close_tag (d ++ rest) = Some (d ++ m).
Proof.
  intros Hd Hr. induction d as [|c d IH]; [exact Hr|].
  cbn [forallb] in Hd. apply andb_prop in Hd as [Hc Hd].
  cbn [app]. apply lazy_step; [now apply close_tag_needs_lt|now apply IH].
Qed.

Lemma text_char_no_lt (c : char) : text_charb c = true -> no_ltb c = true.
Proof.
  unfold text_charb, no_ltb. intros H.
  repeat (apply andb_prop in H; destruct H as [H ?]). exact H.
Qed.

Lemma attr_char_no_lt (c : char) : attr_charb c = true -> no_ltb c = true.
Proof.
  unfold attr_charb, no_ltb. intros H.
  repeat (apply andb_prop in H; destruct H as [H ?]). exact H.
Qed.

Lemma layout_no_lt (c : char) : layoutb c = true -> no_ltb c = true.
Proof.
  unfold layoutb, no_ltb. intros H.
  apply orb_prop in H as [H|H]; [apply orb_prop in H as [H|H]|];
    apply N.eqb_eq in H; subst; reflexivity.
Qed.

Lemma lazy_layout (w rest m : str) :
  is_layout w = true ->
  Re.lazy_any_then Re.close_tag rest = Some m ->
  Re.lazy_any_then Re.close_tag (w ++ rest) = Some (w ++ m).
Proof.
  intros Hw. apply lazy_plain.
  apply (forallb_weaken layoutb); [apply layout_no_lt|exact Hw].
Qed.

(** A start tag is not the closing root tag, and neither is the end tag of
    a section or of a leaf. *)
Lemma lazy_open (n : tagname) (rest m : str) :
  Re.lazy_any_then Re.close_tag rest = Some m ->
  Re.lazy_any_then Re.close_tag (open_src n ++ rest) = Some (open_src n ++ m).
Proof.
  intros H.
  change (open_src n ++ rest) with (60 :: (tag_str n ++ py ">") ++ rest).
  change (open_src n ++ m) with (60 :: (tag_str n ++ py ">") ++ m).
  apply lazy_step; [now destruct n|].
  apply lazy_plain; [now destruct n|exact H].
Qed.

Lemma lazy_close (n : tagname) (rest m : str) :
  n <> Summary ->
  Re.lazy_any_then Re.close_tag rest = Some m ->
  Re.lazy_any_then Re.close_tag (close_src n ++ rest) = Some (close_src n ++ m).
Proof.
  intros Hn H.
  change (close_src n ++ rest) with (60 :: (47 :: tag_str n ++ py ">") ++ rest).
  change (close_src n ++ m) with (60 :: (47 :: tag_str n ++ py ">") ++ m).
  apply lazy_step; [destruct n; [congruence|reflexivity..]|].
  apply lazy_plain; [now destruct n|exact H].
Qed.

Lemma lazy_start (n : tagname) (rid : option str) (rest m : str) :
  match rid with Some r => forallb ET.is_xml_char r = true | None => True end ->
  Re.lazy_any_then Re.close_tag rest = Some m ->
  Re.lazy_any_then Re.close_tag (start_src n rid ++ rest)
  = Some (start_src n rid ++ m).
Proof.
  destruct rid as [r|]; [|intros _; apply lazy_open].
  intros Hr H.
  change (start_src n (Some r) ++ rest)
    with (60 :: (tag_str n ++ py " id=" ++ dq ++ escape_attr r ++ dq ++ py ">")
                ++ rest).
  change (start_src n (Some r) ++ m)
    with (60 :: (tag_str n ++ py " id=" ++ dq ++ escape_attr r ++ dq ++ py ">")
                ++ m).
  apply lazy_step; [now destruct n|].
  apply lazy_plain; [|exact H].
  rewrite !forallb_app.
  rewrite (forallb_weaken attr_charb no_ltb _ attr_char_no_lt
             (escape_attr_chars r Hr)).
  now destruct n.
Qed.

(** A prefix found across the end of [t] is found before a character it
    does not hold. *)
Lemma strip_prefix_straddle (p t : str) (c : char) (rest r : str) :
  ~ In c p ->
  Str.strip_prefix p (t ++ c :: rest) = Some r ->
  exists r', Str.strip_prefix p t = Some r'.
Proof.
  revert t r. induction p as [|x p IH]; intros t r Hc; simpl.
  - eauto.
  - destruct t as [|y t]; simpl.
    + destruct (N.eqb_spec x c) as [->|_]; [|discriminate].
      exfalso. apply Hc. now left.
    + destruct (N.eqb x y); [|discriminate].
      apply IH. intros Hin. apply Hc. now right.
Qed.

Lemma occurs_unfold (p : str) (c : char) (s : str) :
  occurs p (c :: s)
  = match Str.strip_prefix p (c :: s) with
    | Some _ => true
    | None => occurs p s
    end.
Proof. reflexivity. Qed.

(** The text of a CDATA section that does not hold the closing root tag. *)
Lemma lazy_cdata_text (t rest m : str) :
  occurs Re.close_tag t = false ->
  Re.lazy_any_then Re.close_tag rest = Some m ->
  Re.lazy_any_then Re.close_tag (t ++ py "]]>" ++ rest)
  = Some (t ++ py "]]>" ++ m).
Proof.
  intros Ho H. induction t as [|c t IH].
  - apply (lazy_plain (py "]]>")); [reflexivity|exact H].
  - rewrite occurs_unfold in Ho.
    destruct (Str.strip_prefix Re.close_tag (c :: t)) as [r|] eqn:E;
      [discriminate|].
    cbn [app]. apply lazy_step; [|now apply IH].
    destruct (Str.strip_prefix Re.close_tag (c :: t ++ py "]]>" ++ rest))
      as [r|] eqn:E'; [|reflexivity].
    apply (strip_prefix_straddle Re.close_tag (c :: t) 93 (py "]>" ++ rest)) in E'.
    + destruct E' as [r' E']. congruence.
    + cbv. intuition discriminate.
Qed.

Lemma lazy_written (c : written) (rest m : str) :
  written_ok c = true ->
  Re.lazy_any_then Re.close_tag rest = Some m ->
  Re.lazy_any_then Re.close_tag (written_src c ++ rest)
  = Some (written_src c ++ m).
Proof.
  destruct c as [t|t]; cbn [written_ok written_src]; intros Hok H.
  - apply lazy_plain; [|exact H].
    apply (forallb_weaken text_charb); [apply text_char_no_lt|].
    now apply escape_chars.
  - apply andb_prop in Hok as [_ Ho]. apply negb_true_iff in Ho.
    rewrite <- !app_assoc.
    change (py "<![CDATA[" ++ t ++ py "]]>" ++ rest)
      with (60 :: py "![CDATA[" ++ t ++ py "]]>" ++ rest).
    change (py "<![CDATA[" ++ t ++ py "]]>" ++ m)
      with (60 :: py "![CDATA[" ++ t ++ py "]]>" ++ m).
    apply lazy_step; [reflexivity|].
    apply (lazy_plain (py "![CDATA[")); [reflexivity|].
    now apply lazy_cdata_text.
Qed.

Lemma lazy_leaf (n : tagname) (l : leaf) (rest m : str) :
  n <> Summary -> leaf_ok l = true ->
  Re.lazy_any_then Re.close_tag rest = Some m ->
  Re.lazy_any_then Re.close_tag (leaf_src n l ++ rest)
  = Some (leaf_src n l ++ m).
Proof.
  intros Hn Hl H. apply leaf_ok_parts in Hl as (Hid & Hw & Ha).
  unfold leaf_src. rewrite <- !app_assoc.
  apply lazy_start; [exact Hid|].
  apply lazy_written; [exact Hw|].
  apply lazy_close; [exact Hn|].
  now apply lazy_layout.
Qed.

Lemma lazy_leaves (n : tagname) (ls : list leaf) (rest m : str) :
  n <> Summary -> forallb leaf_ok ls = true ->
  Re.lazy_any_then Re.close_tag rest = Some m ->
  Re.lazy_any_then Re.close_tag (flat_map (leaf_src n) ls ++ rest)
  = Some (flat_map (leaf_src n) ls ++ m).
Proof.
  intros Hn Hls H. induction ls as [|l ls IH]; [exact H|].
  cbn [forallb] in Hls. apply andb_prop in Hls as [Hl Hls].
  cbn [flat_map]. rewrite <- !app_assoc.
  apply lazy_leaf; [exact Hn|exact Hl|now apply IH].
Qed.

Lemma match_here_open (body : str) :
  Re.lazy_any_then Re.close_tag body = Some body ->
  Re.match_here (Re.open_tag ++ body) = Some (Re.open_tag ++ body).
Proof.
  intros H. unfold Re.match_here.
  replace (Str.strip_prefix Re.open_tag (Re.open_tag ++ body)) with (Some body)
    by (symmetry; now apply strip_prefix_Some).
  now rewrite H.
Qed.

(** The pattern of line 142 matches the text of a reply from its first to
    its last character. *)
Lemma match_here_reply (r : reply) :
  reply_ok r = true -> Re.match_here (reply_src r) = Some (reply_src r).
Proof.
  intros Hok.
  apply reply_ok_parts in Hok
    as ((W0 & W1 & W2 & W3 & W4 & W5 & W6) & Hi & Hn & Hd & Hq).
  unfold reply_src. apply (match_here_open).
  apply lazy_layout; [exact W0|].
  apply lazy_open. apply lazy_layout; [exact W1|].
  apply lazy_leaves; [discriminate|exact Hi|].
  apply lazy_close; [discriminate|]. apply lazy_layout; [exact W2|].
  apply lazy_leaf; [discriminate|exact Hn|].
  apply lazy_open. apply lazy_layout; [exact W3|].
  apply lazy_leaves; [discriminate|exact Hd|].
  apply lazy_close; [discriminate|]. apply lazy_layout; [exact W4|].
  apply lazy_open. apply lazy_layout; [exact W5|].
  apply lazy_leaves; [discriminate|exact Hq|].
  apply lazy_close; [discriminate|]. apply lazy_layout; [exact W6|].
  reflexivity.
Qed.

Lemma search_reply (r : reply) (pre post : str) :
  ~ In lt_sign pre -> reply_ok r = true ->
  Re.search (pre ++ reply_src r ++ post) = Some (reply_src r).
Proof.
  intros Hpre Hok. rewrite search_skips_prose by exact Hpre.
  rewrite search_unfold.
  now rewrite (match_here_app _ _ post (match_here_reply r Hok)).
Qed.

(** The extractor on a reply, whatever prose stands around it. *)
Lemma extract_reply (r : reply) (pre post : str) :
  ~ In lt_sign pre -> reply_ok r = true ->
  extract (pre ++ reply_src r ++ post) = Ok (reply_doc r).
Proof.
  intros Hpre Hok.
  rewrite (extract_located _ _ _ (search_reply r pre post Hpre Hok)
             (fromstring_reply r Hok)).
  apply extract_reply_tree.
Qed.

(** C2: the extractor keeps the order of the reply.  For every reply written
    in the shape of the template of lines 107-120 (any number of items, ideas
    and quotes, each text escaped or in a CDATA section, an optional [id] on
    every leaf, white space between the elements), with any prose without a
    less-than sign before it and any text after it, the search of line 142
    locates the text of the reply, the parser of line 149 returns its tree,
    and the document holds the item texts, the narrative text, the idea
    texts and the quote pairs in the order the reply writes them.  For every
    reply, whatever its shape, whose located fragment parses and has the
    executive, ideas and quotes sections, the fields are read off the
    children of the sections in the order of the children.  The reply of
    Scenario A is of the first kind and yields [A; B], [N], [I] and
    [(R1, Q1)]. *)
Theorem extractor_keeps_document_order :
  (forall (r : reply) (pre post : str),
      ~ In lt_sign pre ->
      reply_ok r = true ->
      Re.search (pre ++ reply_src r ++ post) = Some (reply_src r)
      /\ ET.fromstring (reply_src r) = ET.Parsed (reply_tree r)
      /\ extract (pre ++ reply_src r ++ post)
         = Ok {| executive_items := map leaf_text (r_items r);
                 narrative := leaf_text (r_narrative r);
                 ideas := map leaf_text (r_ideas r);
                 quotes := map (fun l => (l_id l, leaf_text l)) (r_quotes r) |})
  /\ (forall response xml root e i q,
        Re.search response = Some xml ->
        ET.fromstring xml = ET.Parsed root ->
        ET.find (py "Executive") root = Some e ->
        ET.find (py "Ideas") root = Some i ->
        ET.find (py "Quotes") root = Some q ->
        extract response
        = Ok {| executive_items :=
                  map ET.text_or_empty
                      (filter (fun c => Str.eqb (ET.tag c) (py "Item"))
                              (ET.children e));
                narrative := ET.findtext (py "Narrative") [] root;
                ideas :=
                  map ET.text_or_empty
                      (filter (fun c => Str.eqb (ET.tag c) (py "Idea"))
                              (ET.children i));
                quotes :=
                  map (fun n => (ET.get (py "id") n, ET.text_or_empty n))
                      (filter (fun c => Str.eqb (ET.tag c) (py "Quote"))
                              (ET.children q)) |})
  /\ reply_src scenario_A_reply = scenario_A
  /\ extract scenario_A
     = Ok {| executive_items := [py "A"; py "B"]; narrative := py "N";
             ideas := [py "I"]; quotes := [(Some (py "R1"), py "Q1")] |}.
Proof.
  split; [|split; [|split]].
  - intros r pre post Hpre Hok. split; [|split].
    + now apply search_reply.
    + now apply fromstring_reply.
    + now apply extract_reply.
  - intros response xml root e i q Hs Hp He Hi Hq.
    rewrite (extract_located _ _ _ Hs Hp).
    apply extract_sections_present; assumption.
  - apply scenario_A_is_a_reply.
  - rewrite <- scenario_A_is_a_reply.
    apply (extract_reply scenario_A_reply [] []); [intros []|].
    apply sample_replies_ok.
Qed.

Lemma extractor_keeps_document_order_witness :
  extract (py "Here is the summary:" ++ [nl] ++ reply_src template_reply
           ++ [nl] ++ py "Anything else? </Summary>")
  = Ok {| executive_items := [py "Bullet text"];
          narrative := py "Narrative text";
          ideas := [py "Idea text"];
          quotes := [(Some (py "RESP_001"), py "Quote text")] |}
  /\ extract reply_quote_without_id
     = Ok {| executive_items := []; narrative := py "N"; ideas := [];
             quotes := [(Some (py "R2"), py "Q2"); (None, py "Q1")] |}.
Proof.
  split.
  - refine (proj2 (proj2 (proj1 extractor_keeps_document_order template_reply
                            (py "Here is the summary:" ++ [nl])
                            ([nl] ++ py "Anything else? </Summary>") _ _))).
    + vm_compute. intuition discriminate.
    + vm_compute. reflexivity.
  - refine (eq_trans
              (proj1 (proj2 extractor_keeps_document_order)
                 reply_quote_without_id
                 (py "<Summary><Executive></Executive><Narrative>N</Narrative>"
                  ++ py "<Ideas></Ideas><Quotes><Quote id='R2'>Q2</Quote>"
                  ++ py "<Quote>Q1</Quote></Quotes></Summary>")
                 (ET.mkElement (py "Summary") [] None
                    [ET.mkElement (py "Executive") [] None [] None;
                     ET.mkElement (py "Narrative") [] (Some (py "N")) [] None;
                     ET.mkElement (py "Ideas") [] None [] None;
                     ET.mkElement (py "Quotes") [] None
                       [ET.mkElement (py "Quote") [(py "id", py "R2")]
                                     (Some (py "Q2")) [] None;
                        ET.mkElement (py "Quote") [] (Some (py "Q1")) [] None]
                       None] None)
                 (ET.mkElement (py "Executive") [] None [] None)
                 (ET.mkElement (py "Ideas") [] None [] None)
                 (ET.mkElement (py "Quotes") [] None
                    [ET.mkElement (py "Quote") [(py "id", py "R2")]
                                  (Some (py "Q2")) [] None;
                     ET.mkElement (py "Quote") [] (Some (py "Q1")) [] None]
                    None)
                 _ _ _ _ _) _);
      vm_compute; reflexivity.
Defined.
